(** * Country-capital web application: name resolution and the save workflow

    A shallow embedding of [main.py] (a Flask application) and proofs about
    its lookup, suggestion and validate-then-persist paths.

    Conventions of the embedding.
    - A Python [str] is a Rocq [string]; the string methods are modelled on
      ASCII text (code points below 128), where [lower], [strip] and
      [capitalize] are character-wise; characters from 128 on are left
      untouched by the model.
    - The module-level dictionary [countryCapital] is an insertion-ordered
      association list with unique keys, as a Python [dict] is: assignment
      to a present key replaces the value in place, assignment to a new key
      appends.
    - Module globals, the JSON file and the outbound HTTP traffic form an
      explicit [World]; a handler is a function in a state-and-exception
      monad over it.  What the outside decides (the answers of the REST
      service, whether a write to disk completes, the value of the
      third-party SequenceMatcher ratio) is an [Env]. *)

From Stdlib Require Import String Ascii List ZArith NArith Bool Lia.
Import ListNotations.

Local Open Scope string_scope.
Local Open Scope Z_scope.

(* ================================================================== *)
(** ** Python string methods used by the application *)

Module Py.

Definition code (c : ascii) : N := N_of_ascii c.

(** [str.isspace] on one character: TAB, LF, VT, FF, CR, the four
    separators FS, GS, RS, US and the blank. *)
Definition isspace (c : ascii) : bool :=
  let n := code c in
  (((9 <=? n) && (n <=? 13)) || ((28 <=? n) && (n <=? 32)))%N.

Definition lower_char (c : ascii) : ascii :=
  let n := code c in
  if ((65 <=? n) && (n <=? 90))%N then ascii_of_N (n + 32) else c.

Definition upper_char (c : ascii) : ascii :=
  let n := code c in
  if ((97 <=? n) && (n <=? 122))%N then ascii_of_N (n - 32) else c.

(** [s.lower()] *)
Fixpoint lower (s : string) : string :=
  match s with
  | EmptyString => EmptyString
  | String c r => String (lower_char c) (lower r)
  end.

(** [s.lstrip()] *)
Fixpoint lstrip (s : string) : string :=
  match s with
  | EmptyString => EmptyString
  | String c r => if isspace c then lstrip r else s
  end.

(** [s.rstrip()] *)
Fixpoint rstrip (s : string) : string :=
  match s with
  | EmptyString => EmptyString
  | String c r =>
      match rstrip r with
      | EmptyString => if isspace c then EmptyString else String c EmptyString
      | r' => String c r'
      end
  end.

(** [s.strip()] *)
Definition strip (s : string) : string := rstrip (lstrip s).

(** [s.capitalize()]: first character upper-cased, the rest lower-cased. *)
Definition capitalize (s : string) : string :=
  match s with
  | EmptyString => EmptyString
  | String c r => String (upper_char c) (lower r)
  end.

(** Character-wise substitution, as [re.sub] with a one-character class. *)
Fixpoint map_chars (f : ascii -> ascii) (s : string) : string :=
  match s with
  | EmptyString => EmptyString
  | String c r => String (f c) (map_chars f r)
  end.

End Py.

(* ================================================================== *)
(** ** The dictionary [countryCapital] *)

Module Dict.

Definition t : Type := list (string * string).

Definition empty : t := [].

(** [d.get(k)] *)
Fixpoint get (d : t) (k : string) : option string :=
  match d with
  | [] => None
  | (k', v) :: r => if String.eqb k' k then Some v else get r k
  end.

(** [d[k] = v] *)
Fixpoint set (d : t) (k v : string) : t :=
  match d with
  | [] => [(k, v)]
  | (k', v') :: r =>
      if String.eqb k' k then (k', v) :: r else (k', v') :: set r k v
  end.

(** [list(d.keys())] *)
Definition keys (d : t) : list string := map fst d.

End Dict.

(* ================================================================== *)
(** ** fuzzywuzzy: [utils.full_process], [fuzz.ratio], [process.extract]

    The application calls [process.extract(query, choices,
    scorer=fuzz.ratio, limit=5)].  The package is a dependency, not part of
    the repository; its wrappers are embedded here as the package defines
    them, and the one thing left to the environment is the number
    [utils.intr(100 * SequenceMatcher(None, s1, s2).ratio())], which comes
    from difflib or from python-Levenshtein, whichever is installed. *)

Module Fuzzy.

(** A character the regular expression [\W] does not match. *)
Definition is_word_char (c : ascii) : bool :=
  let n := Py.code c in
  (((48 <=? n) && (n <=? 57)) || ((65 <=? n) && (n <=? 90))
   || ((97 <=? n) && (n <=? 122)) || (n =? 95))%N.

Definition blank_non_word (c : ascii) : ascii :=
  if is_word_char c then c else " "%char.

(** [utils.full_process], the default [processor] of [process.extract]:
    every character that is neither a letter, a digit nor an underscore
    becomes a blank, then [lower], then [strip]. *)
Definition full_process (s : string) : string :=
  Py.strip (Py.lower (Py.map_chars blank_non_word s)).

Section Scorer.
(** [intr(100 * m.ratio())] of the installed SequenceMatcher. *)
Variable matcher_ratio : string -> string -> Z.

(** [fuzz.ratio] with its decorators: [check_for_equivalence] answers
    100 on equal arguments, [check_empty_string] answers 0 when one of
    them is empty; only then is the matcher run. *)
Definition ratio (s1 s2 : string) : Z :=
  if String.eqb s1 s2 then 100
  else if (String.length s1 =? 0)%nat || (String.length s2 =? 0)%nat then 0
  else matcher_ratio s1 s2.

(** The score [process.extractWithoutOrder] attaches to [choice]. *)
Definition score (query choice : string) : Z :=
  ratio (full_process query) (full_process choice).

(** [process.extractWithoutOrder] over a list, [score_cutoff = 0]: the
    choices are yielded unprocessed, paired with their score. *)
Definition extractWithoutOrder (query : string) (choices : list string)
  : list (string * Z) :=
  filter (fun p => 0 <=? snd p)
         (map (fun choice => (choice, score query choice)) choices).

(** [sorted(it, key=lambda i: i[1], reverse=True)]: stable, so among
    equal scores the earlier element stays first. *)
Fixpoint insert_desc (x : string * Z) (l : list (string * Z))
  : list (string * Z) :=
  match l with
  | [] => [x]
  | y :: r => if snd x <? snd y then y :: insert_desc x r else x :: y :: r
  end.

Definition sorted_desc (l : list (string * Z)) : list (string * Z) :=
  fold_right insert_desc [] l.

(** [heapq.nlargest(n, it, key)], which is [sorted(...)[:n]]. *)
Definition nlargest (n : nat) (l : list (string * Z)) : list (string * Z) :=
  firstn n (sorted_desc l).

(** [process.extract] *)
Definition extract (query : string) (choices : list string) (limit : nat)
  : list (string * Z) :=
  nlargest limit (extractWithoutOrder query choices).
End Scorer.

End Fuzzy.

(* ================================================================== *)
(** ** difflib.SequenceMatcher, the matcher fuzzywuzzy falls back on

    [SequenceMatcher(None, a, b)] with [autojunk] left on: no junk, and in a
    second sequence of 200 elements or more the elements making up more
    than 1% + 1 of it are "popular" and dropped from the index [b2j]. *)

Module Difflib.

Section SequenceMatcher.
Variables a b : list ascii.

Definition at_ (l : list ascii) (i : nat) : ascii := nth i l zero.

Definition bpopular (x : ascii) : bool :=
  let n := List.length b in
  ((200 <=? n) && (n / 100 + 1 <? count_occ ascii_dec b x))%nat.

Fixpoint indices (x : ascii) (l : list ascii) (j : nat) : list nat :=
  match l with
  | [] => []
  | y :: r =>
      if Ascii.eqb x y then j :: indices x r (S j) else indices x r (S j)
  end.

(** [b2j.get(x, [])] *)
Definition b2j (x : ascii) : list nat :=
  if bpopular x then [] else indices x b 0.

(** [j2len.get(j, 0)] *)
Definition j2len_get (j2len : list (nat * nat)) (j : nat) : nat :=
  match find (fun p => (fst p =? j)%nat) j2len with
  | Some p => snd p
  | None => 0%nat
  end.

Definition Match : Type := (nat * nat * nat)%type.
Definition size (m : Match) : nat := snd m.

(** The body of [for j in b2j.get(a[i], nothing)]; the indices are
    ascending, so [continue] below [blo] and [break] from [bhi] on keep
    exactly those in the window. *)
Definition scan_b (i blo bhi : nat) (j2len : list (nat * nat)) (best : Match)
  : Match * list (nat * nat) :=
  fold_left
    (fun (st : Match * list (nat * nat)) (j : nat) =>
       let '(best, newj2len) := st in
       let k := (match j with
                 | O => 0
                 | S j' => j2len_get j2len j'
                 end + 1)%nat in
       let newj2len := (j, k) :: newj2len in
       if (size best <? k)%nat
       then ((i + 1 - k, j + 1 - k, k)%nat, newj2len)
       else (best, newj2len))
    (filter (fun j => (blo <=? j) && (j <? bhi))%nat (b2j (at_ a i)))
    (best, []).

(** The first [while] of [find_longest_match]: grow the block to the
    left over equal elements. *)
Fixpoint extend_left (fuel alo blo : nat) (m : Match) : Match :=
  match fuel with
  | O => m
  | S fuel' =>
      let '(besti, bestj, bestsize) := m in
      if ((alo <? besti) && (blo <? bestj))%nat
         && Ascii.eqb (at_ a (besti - 1)) (at_ b (bestj - 1))
      then extend_left fuel' alo blo (besti - 1, bestj - 1, bestsize + 1)%nat
      else m
  end.

(** The second [while]: grow it to the right. *)
Fixpoint extend_right (fuel ahi bhi : nat) (m : Match) : Match :=
  match fuel with
  | O => m
  | S fuel' =>
      let '(besti, bestj, bestsize) := m in
      if ((besti + bestsize <? ahi) && (bestj + bestsize <? bhi))%nat
         && Ascii.eqb (at_ a (besti + bestsize)) (at_ b (bestj + bestsize))
      then extend_right fuel' ahi bhi (besti, bestj, bestsize + 1)%nat
      else m
  end.

(** [find_longest_match(alo, ahi, blo, bhi)]; with no junk the two
    closing loops over junk elements do nothing. *)
Definition find_longest_match (alo ahi blo bhi : nat) : Match :=
  let longest :=
    fst (fold_left
           (fun (st : Match * list (nat * nat)) (i : nat) =>
              scan_b i blo bhi (snd st) (fst st))
           (seq alo (ahi - alo))
           ((alo, blo, 0%nat), [])) in
  extend_right ahi ahi bhi (extend_left ahi alo blo longest).

(** The total size of the blocks [get_matching_blocks] collects from
    the window and, through its work list, from the windows left and
    right of each block found.  Every window is strictly inside the one
    it comes from, so [fuel] above the length of [a] is never used up. *)
Fixpoint matched (fuel alo ahi blo bhi : nat) : nat :=
  match fuel with
  | O => 0%nat
  | S fuel' =>
      let '(i, j, k) := find_longest_match alo ahi blo bhi in
      match k with
      | O => 0%nat
      | _ =>
          (k
           + (if (alo <? i) && (blo <? j)
              then matched fuel' alo i blo j else 0)
           + (if (i + k <? ahi) && (j + k <? bhi)
              then matched fuel' (i + k) ahi (j + k) bhi else 0))%nat
      end
  end.

(** [sum(triple[-1] for triple in self.get_matching_blocks())] *)
Definition matches : nat :=
  matched (S (List.length a)) 0 (List.length a) 0 (List.length b).
End SequenceMatcher.

(** The integer nearest to [num / den], ties to the even one. *)
Definition round_half_even (num den : Z) : Z :=
  let q := num / den in
  let r := num mod den in
  if 2 * r <? den then q
  else if den <? 2 * r then q + 1
  else if Z.even q then q else q + 1.

(** The double nearest to [num / den], as [(m, k)] standing for
    [m / 2^k] with a 53-bit [m]; for [0 <= num / den < 2^52]. *)
Definition to_double (num den : Z) : Z * Z :=
  if num <=? 0 then (0, 0)
  else
    let k0 := 52 - Z.log2 num + Z.log2 den in
    let k := if num * 2 ^ k0 <? den * 2 ^ 52 then k0 + 1 else k0 in
    (round_half_even (num * 2 ^ k) den, k).

(** [utils.intr(100 * _calculate_ratio(matches, length))] in double
    arithmetic: [2.0 * matches / length] rounds once, the product with
    100 rounds once more, and [round] takes the nearest integer, ties to
    even. *)
Definition intr_100_ratio (matches length : nat) : Z :=
  match length with
  | O => 100
  | _ =>
      let '(m, k) := to_double (2 * Z.of_nat matches) (Z.of_nat length) in
      let '(m', k') := to_double (100 * m) (2 ^ k) in
      round_half_even m' (2 ^ k')
  end.

(** [utils.intr(100 * SequenceMatcher(None, s1, s2).ratio())] *)
Definition matcher_ratio (s1 s2 : string) : Z :=
  let a := list_ascii_of_string s1 in
  let b := list_ascii_of_string s2 in
  intr_100_ratio (matches a b) (List.length a + List.length b).

End Difflib.

(* ================================================================== *)
(** ** The world of the process *)

(** One record of [country-capital.json]. *)
Record Entry : Type := mkEntry {
  country : string;
  capital : string;
  type_ : string
}.

(** What [json.load] finds in the file: a list of records, or nothing it
    can read (missing, truncated by an interrupted dump, malformed). *)
Inductive FileContent : Type :=
| Json (data : list Entry)
| Unreadable.

(** A country object of the REST service, reduced to [name.common]. *)
Record CountryJson : Type := mkCountry { name_common : string }.

(** The outcome of [requests.get]: the request raised
    [requests.RequestException], or a response came back, here with its
    status and the list [response.json()] makes of its body. *)
Inductive HttpResult : Type :=
| RequestException
| HttpResponse (status_code : Z) (json : list CountryJson).

(** The outcome of re-writing the file: done, [open(.., 'w')] raised and
    the file is as before, or [json.dump] raised on the truncated file. *)
Inductive DiskWrite : Type :=
| Written
| OpenFailed
| DumpFailed.

Record Env : Type := mkEnv {
  matcher_ratio : string -> string -> Z;
  (** the answer to the request sent when [n] requests went out before *)
  http_get : nat -> string -> HttpResult;
  disk_write : list Entry -> DiskWrite
}.

Record World : Type := mkWorld {
  file : FileContent;
  countryCapital : Dict.t;
  all_countries_cache : option (list string);
  (** the URLs requested so far, oldest first *)
  http_log : list string
}.

Inductive Exn : Type :=
| OSError
| IndexError.

Inductive Res (A : Type) : Type :=
| Ok (a : A)
| Raise (e : Exn).
Arguments Ok {A} a.
Arguments Raise {A} e.

(** State over [World] with exceptions that end the handler. *)
Definition M (A : Type) : Type := World -> Res A * World.

Definition ret {A} (a : A) : M A := fun w => (Ok a, w).

Definition bind {A B} (m : M A) (k : A -> M B) : M B :=
  fun w =>
    match m w with
    | (Ok a, w') => k a w'
    | (Raise e, w') => (Raise e, w')
    end.

Definition raise {A} (e : Exn) : M A := fun w => (Raise e, w).

Declare Scope monad_scope.
Delimit Scope monad_scope with monad.
Notation "x <- m ;; k" := (bind m (fun x => k))
  (at level 61, m at next level, right associativity) : monad_scope.
Notation "m ;;; k" := (bind m (fun _ => k))
  (at level 61, right associativity) : monad_scope.
Local Open Scope monad_scope.

Definition get_countryCapital : M Dict.t := fun w => (Ok (countryCapital w), w).

Definition set_countryCapital (d : Dict.t) : M unit :=
  fun w => (Ok tt, mkWorld (file w) d (all_countries_cache w) (http_log w)).

Definition get_cache : M (option (list string)) :=
  fun w => (Ok (all_countries_cache w), w).

Definition set_cache (c : option (list string)) : M unit :=
  fun w => (Ok tt, mkWorld (file w) (countryCapital w) c (http_log w)).

(** [with open('country-capital.json', 'r') as f: data = json.load(f)] *)
Definition read_file : M (list Entry) :=
  fun w =>
    match file w with
    | Json data => (Ok data, w)
    | Unreadable => (Raise OSError, w)
    end.

Definition set_file (f : FileContent) : M unit :=
  fun w => (Ok tt, mkWorld f (countryCapital w) (all_countries_cache w) (http_log w)).

Module App.
Section Application.
Variable env : Env.

(** [requests.get(url, timeout=..)]: the request goes out and is logged;
    the environment answers. *)
Definition requests_get (url : string) : M HttpResult :=
  fun w =>
    (Ok (http_get env (List.length (http_log w)) url),
     mkWorld (file w) (countryCapital w) (all_countries_cache w)
             (http_log w ++ [url])).

(** [with open('country-capital.json', 'w') as f: json.dump(data, f)] *)
Definition write_file (data : list Entry) : M unit :=
  match disk_write env data with
  | Written => set_file (Json data)
  | OpenFailed => raise OSError
  | DumpFailed => set_file Unreadable ;;; raise OSError
  end.

Definition all_url : string := "https://restcountries.com/v3.1/all".
Definition name_url (country_name : string) : string :=
  "https://restcountries.com/v3.1/name/" ++ country_name.

Definition get_all_countries : M (list string) :=
  cache <- get_cache ;;
  match cache with
  | Some l => ret l
  | None =>
      response <- requests_get all_url ;;
      match response with
      | HttpResponse status data =>
          if status =? 200 then
            let names := map name_common data in
            set_cache (Some names) ;;; ret names
          else ret []
      | RequestException => ret []
      end
  end.

(** [validate_country]: [Some name] stands for the tuple
    [(True, name, None)], [None] for [(False, None, None)].  On a 200
    response with an empty list [data[0]] raises [IndexError], which the
    [except requests.RequestException] clause does not catch. *)
Definition validate_country (country_name : string) : M (option string) :=
  response <- requests_get (name_url country_name) ;;
  match response with
  | HttpResponse status data =>
      if status =? 200 then
        match data with
        | c :: _ => ret (Some (name_common c))
        | [] => raise IndexError
        end
      else ret None
  | RequestException => ret None
  end.

Definition find_similar_countries (country_name : string) (threshold : Z)
  : M (list (string * Z)) :=
  all_countries <- get_all_countries ;;
  match all_countries with
  | [] => ret []
  | _ =>
      let matches :=
        Fuzzy.extract (matcher_ratio env) country_name all_countries 5 in
      ret (filter (fun m => threshold <=? snd m) matches)
  end.

Definition find_similar_local_countries (country_name : string) (threshold : Z)
  : M (list (string * Z)) :=
  d <- get_countryCapital ;;
  let local_countries := Dict.keys d in
  match local_countries with
  | [] => ret []
  | _ =>
      let matches :=
        Fuzzy.extract (matcher_ratio env) country_name local_countries 5 in
      ret (map (fun m => (Py.capitalize (fst m), snd m))
               (filter (fun m => threshold <=? snd m) matches))
  end.

(** The templates a handler renders, with their arguments. *)
Inductive View : Type :=
| index_html
| success_html (country city : string)
| suggestions_html (country : string) (suggestions : list (string * Z))
                   (city : string)
| unknown_html (country city : string)
| invalid_country_html (country : string).

Definition index : M View := ret index_html.

(** [/capital]; the form field holding the country is named [city]. *)
Definition capital (form_city : string) : M View :=
  let country := Py.lower form_city in
  d <- get_countryCapital ;;
  match Dict.get d country with
  | Some city => ret (success_html (Py.capitalize country) city)
  | None =>
      local_suggestions <- find_similar_local_countries country 60 ;;
      match local_suggestions with
      | [] => ret (unknown_html (Py.capitalize country) "")
      | _ => ret (suggestions_html (Py.capitalize country) local_suggestions "")
      end
  end.

Definition ask (form_country form_city : string) : M View :=
  let country := Py.lower form_country in
  ret (success_html (Py.capitalize country) form_city).

Definition select_local (form_country : string) : M View :=
  let country := Py.lower form_country in
  d <- get_countryCapital ;;
  match Dict.get d country with
  | Some (String c r) => ret (success_html (Py.capitalize country) (String c r))
  | _ => ret (unknown_html (Py.capitalize country) "")
  end.

(** The tail shared by [save] and [confirm_country]: append the record to
    the file, then update the dictionary. *)
Definition append_and_index (country city : string) : M View :=
  let countcap := mkEntry country city "countryCapital" in
  data <- read_file ;;
  write_file (data ++ [countcap]) ;;;
  d <- get_countryCapital ;;
  set_countryCapital (Dict.set d (Py.lower country) city) ;;;
  ret (success_html country city).

Definition save (form_country form_city : string) : M View :=
  let country := Py.strip form_country in
  let city := Py.strip form_city in
  v <- validate_country country ;;
  match v with
  | None =>
      similar_countries <- find_similar_countries country 50 ;;
      match similar_countries with
      | [] => ret (invalid_country_html (Py.capitalize country))
      | _ => ret (suggestions_html (Py.capitalize country) similar_countries city)
      end
  | Some standardized_name =>
      append_and_index standardized_name (Py.capitalize city)
  end.

Definition confirm_country (form_country form_city : string) : M View :=
  let country := Py.strip form_country in
  let city := Py.strip form_city in
  v <- validate_country country ;;
  match v with
  | Some standardized_name =>
      append_and_index standardized_name (Py.capitalize city)
  | None => ret (invalid_country_html (Py.capitalize country))
  end.

(** The requests the application answers. *)
Inductive Request : Type :=
| GET_index
| POST_capital (city : string)
| POST_ask (country city : string)
| POST_select_local (country : string)
| POST_save (country city : string)
| POST_confirm_country (country city : string).

Definition handle (r : Request) : M View :=
  match r with
  | GET_index => index
  | POST_capital c => capital c
  | POST_ask c t => ask c t
  | POST_select_local c => select_local c
  | POST_save c t => save c t
  | POST_confirm_country c t => confirm_country c t
  end.
End Application.
End App.

(** Module initialisation: the loop filling [countryCapital] from the
    records of the file. *)
Definition index_step (d : Dict.t) (entry : Entry) : Dict.t :=
  Dict.set d (Py.lower (country entry)) (capital entry).

Definition build_index (data : list Entry) : Dict.t :=
  fold_left index_step data Dict.empty.

Definition startup (data : list Entry) : World :=
  mkWorld (Json data) (build_index data) None [].

(** The states the process reaches: start-up on a readable file, then any
    sequence of requests. *)
Inductive reachable (env : Env) : World -> Prop :=
| reach_startup : forall data, reachable env (startup data)
| reach_handle : forall w r,
    reachable env w -> reachable env (snd (App.handle env r w)).

(* ================================================================== *)
(** ** The operations the specification names *)

(** Normalizer of the specification: trim, then lower-case.  The
    application has no such function; it keys the dictionary and the
    lookups with [lower] alone. *)
Definition normalize (s : string) : string := Py.lower (Py.strip s).

(** [resolveExact]: the capital [/capital] shows for the input, if it shows
    one. *)
Definition resolveExact (env : Env) (w : World) (q : string) : option string :=
  match fst (App.capital env q w) with
  | Ok (App.success_html _ city) => Some city
  | _ => None
  end.

(** [suggestLocal]: what [find_similar_local_countries] returns with the
    threshold its one caller leaves at the default. *)
Definition suggestLocal (env : Env) (w : World) (q : string) : list (string * Z) :=
  match fst (App.find_similar_local_countries env q 60 w) with
  | Ok l => l
  | Raise _ => []
  end.

(* ================================================================== *)
(** ** Notions used in the statements *)

(** [s.isascii()]: every character is below 128.  On such text the string
    methods above are Python's, code point by code point. *)
Fixpoint isascii (s : string) : bool :=
  match s with
  | EmptyString => true
  | String c r => (Py.code c <? 128)%N && isascii r
  end.

(** The capital of the last record for the key [k], read off the file. *)
Fixpoint last_capital (data : list Entry) (k : string) : option string :=
  match data with
  | [] => None
  | e :: r =>
      match last_capital r k with
      | Some c => Some c
      | None => if String.eqb (Py.lower (country e)) k then Some (capital e) else None
      end
  end.

(** The store: the file and the dictionary. *)
Definition same_store (w w' : World) : Prop :=
  file w' = file w /\ countryCapital w' = countryCapital w.

(** The world once [url] has been requested. *)
Definition sent (url : string) (w : World) : World :=
  mkWorld (file w) (countryCapital w) (all_countries_cache w) (http_log w ++ [url]).

Definition cached (names : list string) (w : World) : World :=
  mkWorld (file w) (countryCapital w) (Some names) (http_log w).

(** The invariant of the store: the keys of the dictionary are pairwise
    distinct and lower-case, and as long as the file can be read the
    dictionary is the index of its records. *)
Definition store_inv (w : World) : Prop :=
  NoDup (Dict.keys (countryCapital w))
  /\ Forall (fun k => Py.lower k = k) (Dict.keys (countryCapital w))
  /\ forall data, file w = Json data -> countryCapital w = build_index data.

(** The entry [save] writes. *)
Definition saved_entry (canonical t : string) : Entry :=
  mkEntry canonical (Py.capitalize (Py.strip t)) "countryCapital".

(** A block inside the window [alo, ahi) x [blo, bhi). *)
Definition in_window (alo ahi blo bhi : nat) (m : Difflib.Match) : Prop :=
  let '(i, j, k) := m in
  (alo <= i /\ i + k <= ahi /\ blo <= j /\ j + k <= bhi)%nat.

(** A row of [j2len]: lengths of blocks ending in the current row, none
    longer than [n] or reaching left of [blo]. *)
Definition row_ok (n blo : nat) (j2len : list (nat * nat)) : Prop :=
  forall j len, In (j, len) j2len -> (len <= n /\ len <= j + 1 - blo)%nat.

(** The invariant as the specification words it, on the records of the
    file: no two countries equal up to case, no empty capital. *)
Definition entries_unique_nonempty (w : World) : Prop :=
  forall data, file w = Json data ->
    NoDup (map (fun e => Py.lower (country e)) data)
    /\ (forall e, In e data -> capital e <> "").

(** Several requests in a row. *)
Fixpoint run (env : Env) (rs : list App.Request) (w : World) : World :=
  match rs with
  | [] => w
  | r :: rs' => run env rs' (snd (App.handle env r w))
  end.

(** The list [get_all_countries] hands to its caller in the world [w]. *)
Definition all_names (env : Env) (w : World) : list string :=
  match fst (App.get_all_countries env w) with
  | Ok l => l
  | Raise _ => []
  end.

(** Scores in descending order. *)
Fixpoint desc_sorted (l : list (string * Z)) : Prop :=
  match l with
  | [] => True
  | x :: r => Forall (fun y => snd y <= snd x) r /\ desc_sorted r
  end.

(** Every choice with its score, before any cut. *)
Definition scored (m : string -> string -> Z) (q : string) (choices : list string)
  : list (string * Z) :=
  map (fun choice => (choice, Fuzzy.score m q choice)) choices.

(** The test of the threshold. *)
Definition above (t : Z) (m : string * Z) : bool := t <=? snd m.

(** The display form of a suggestion. *)
Definition display (m : string * Z) : string * Z := (Py.capitalize (fst m), snd m).

(** The elements of a list in the order of their first appearance. *)
Definition first_occurrences (l : list string) : list string :=
  fold_left (fun acc k => if existsb (String.eqb k) acc then acc
                          else (acc ++ [k])%list)
            l [].

(* ================================================================== *)
(** ** Concrete environments and stores used in the examples *)

(** No network; every write completes; difflib is the matcher. *)
Definition offline_env : Env :=
  mkEnv Difflib.matcher_ratio (fun _ _ => RequestException) (fun _ => Written).

(** The name lookup answers 200 with [canonical] as the first match. *)
Definition directory_env (canonical : string) : Env :=
  mkEnv Difflib.matcher_ratio
        (fun _ _ => HttpResponse 200 [mkCountry canonical])
        (fun _ => Written).

(** As [directory_env], on a disk where [json.dump] fails. *)
Definition full_disk_env (canonical : string) : Env :=
  mkEnv Difflib.matcher_ratio
        (fun _ _ => HttpResponse 200 [mkCountry canonical])
        (fun _ => DumpFailed).

(** The service fails on the first request and answers the second. *)
Definition flaky_env (names : list string) : Env :=
  mkEnv Difflib.matcher_ratio
        (fun n _ => match n with
                    | O => RequestException
                    | _ => HttpResponse 200 (map mkCountry names)
                    end)
        (fun _ => Written).

Definition france : Entry := mkEntry "France" "Paris" "countryCapital".
Definition france_store : World := startup [france].
Definition lutetia : Entry := mkEntry "FRANCE" "Lutetia" "countryCapital".

(** The requests that save France twice, and once with no capital. *)
Definition save_france : App.Request := App.POST_save "france" "paris".
Definition save_france_blank : App.Request := App.POST_save "france" " ".

Definition saved_twice : World :=
  snd (App.handle (directory_env "France") save_france
         (snd (App.handle (directory_env "France") save_france (startup [])))).

Definition saved_blank : World :=
  snd (App.handle (directory_env "France") save_france_blank (startup [])).

(** The directory answers every request with status 200 and no country. *)
Definition empty_list_env : Env :=
  mkEnv Difflib.matcher_ratio (fun _ _ => HttpResponse 200 []) (fun _ => Written).

(** The name lookup (the first request) fails with 404; the list of all
    countries (the second) is served. *)
Definition suggesting_env (names : list string) : Env :=
  mkEnv Difflib.matcher_ratio
        (fun n _ => match n with
                    | O => HttpResponse 404 []
                    | _ => HttpResponse 200 (map mkCountry names)
                    end)
        (fun _ => Written).

(** Two records for one country up to white space and case, the later one
    with a blank before the name. *)
Definition lutetia_first : Entry := mkEntry "France" "Lutetia" "countryCapital".
Definition paris_blank : Entry := mkEntry " France" "Paris" "countryCapital".


(* ================================================================== *)
(** ** Characters and strings *)

Ltac by_cases_on_char c :=
  destruct c as [[] [] [] [] [] [] [] []]; reflexivity.

Lemma lower_char_idem (c : ascii) :
  Py.lower_char (Py.lower_char c) = Py.lower_char c.
Proof. by_cases_on_char c. Qed.

Lemma lower_upper_char (c : ascii) :
  Py.lower_char (Py.upper_char c) = Py.lower_char c.
Proof. by_cases_on_char c. Qed.

Lemma isspace_lower_char (c : ascii) :
  Py.isspace (Py.lower_char c) = Py.isspace c.
Proof. by_cases_on_char c. Qed.

Lemma blank_non_word_lower (c : ascii) :
  Py.lower_char (Fuzzy.blank_non_word c)
  = Py.lower_char (Fuzzy.blank_non_word (Py.lower_char c)).
Proof. by_cases_on_char c. Qed.

Lemma blank_non_word_space (c : ascii) :
  Py.isspace c = true -> Py.isspace (Fuzzy.blank_non_word c) = true.
Proof.
  destruct c as [[] [] [] [] [] [] [] []]; intros H;
    solve [reflexivity | discriminate H].
Qed.

Lemma lower_idem (s : string) : Py.lower (Py.lower s) = Py.lower s.
Proof.
  induction s as [|c r IH]; simpl; [reflexivity|].
  now rewrite lower_char_idem, IH.
Qed.

(** On ASCII text [capitalize] changes the case only.  (Beyond ASCII it
    does not: the title case of a sharp s is two letters.) *)
Lemma lower_capitalize (s : string) :
  isascii s = true -> Py.lower (Py.capitalize s) = Py.lower s.
Proof.
  intros _. destruct s as [|c r]; simpl; [reflexivity|].
  now rewrite lower_upper_char, lower_idem.
Qed.

(** A display form made from a lower-case ASCII key leads back to the key. *)
Lemma lower_capitalize_key (k : string) :
  isascii k = true -> Py.lower k = k -> Py.lower (Py.capitalize k) = k.
Proof. intros Ha H. now rewrite lower_capitalize. Qed.

Lemma lower_map_blank (s : string) :
  Py.lower (Py.map_chars Fuzzy.blank_non_word s)
  = Py.lower (Py.map_chars Fuzzy.blank_non_word (Py.lower s)).
Proof.
  induction s as [|c r IH]; simpl; [reflexivity|].
  now rewrite blank_non_word_lower, IH.
Qed.

(** On ASCII text [full_process] does not see the case of its argument.
    (Beyond ASCII it can: lower-casing a dotted capital I leaves a combining
    mark, which the processor blanks.) *)
Lemma full_process_lower (s : string) :
  isascii s = true -> Fuzzy.full_process (Py.lower s) = Fuzzy.full_process s.
Proof. intros _. unfold Fuzzy.full_process. now rewrite <- lower_map_blank. Qed.

Section StripUnderMap.
(** A character map that keeps white space white. *)
Variable f : ascii -> ascii.
Hypothesis f_space : forall c, Py.isspace c = true -> Py.isspace (f c) = true.

Lemma lstrip_map_lstrip (s : string) :
  Py.lstrip (Py.map_chars f (Py.lstrip s)) = Py.lstrip (Py.map_chars f s).
Proof.
  induction s as [|c r IH]; simpl; [reflexivity|].
  destruct (Py.isspace c) eqn:E; simpl.
  - now rewrite (f_space c E).
  - reflexivity.
Qed.

Lemma rstrip_map_rstrip (s : string) :
  Py.rstrip (Py.map_chars f (Py.rstrip s)) = Py.rstrip (Py.map_chars f s).
Proof.
  induction s as [|c r IH]; simpl; [reflexivity|].
  destruct (Py.rstrip r) as [|c' r'] eqn:E.
  - simpl in IH. rewrite <- IH.
    destruct (Py.isspace c) eqn:Ec; simpl.
    + now rewrite (f_space c Ec).
    + reflexivity.
  - rewrite <- IH.
    remember (String c' r') as t eqn:Et.
    change (Py.map_chars f (String c t)) with (String (f c) (Py.map_chars f t)).
    change (Py.rstrip (String (f c) (Py.map_chars f t)))
      with (match Py.rstrip (Py.map_chars f t) with
            | EmptyString =>
                if Py.isspace (f c) then EmptyString
                else String (f c) EmptyString
            | String x y => String (f c) (String x y)
            end).
    reflexivity.
Qed.
End StripUnderMap.

Lemma rstrip_head (c : ascii) (r : string) :
  Py.isspace c = false -> exists r', Py.rstrip (String c r) = String c r'.
Proof.
  intros H. simpl. destruct (Py.rstrip r).
  - rewrite H. now exists EmptyString.
  - now eexists.
Qed.

Lemma lstrip_rstrip (s : string) :
  Py.lstrip (Py.rstrip s) = Py.rstrip (Py.lstrip s).
Proof.
  induction s as [|c r IH]; [reflexivity|].
  destruct (Py.isspace c) eqn:E.
  - cbn [Py.lstrip]. rewrite E, <- IH.
    cbn [Py.rstrip]. destruct (Py.rstrip r) as [|c' r'] eqn:Er.
    + now rewrite E.
    + cbn [Py.lstrip]. now rewrite E.
  - cbn [Py.lstrip]. rewrite E.
    destruct (rstrip_head c r E) as [r' Hr]. rewrite Hr.
    cbn [Py.lstrip]. now rewrite E.
Qed.

Lemma strip_map_strip (f : ascii -> ascii) (s : string) :
  (forall c, Py.isspace c = true -> Py.isspace (f c) = true) ->
  Py.strip (Py.map_chars f (Py.strip s)) = Py.strip (Py.map_chars f s).
Proof.
  intros Hf. unfold Py.strip.
  rewrite <- lstrip_rstrip, rstrip_map_rstrip by assumption.
  rewrite lstrip_rstrip, lstrip_map_lstrip by assumption.
  reflexivity.
Qed.

Lemma lower_as_map (s : string) : Py.lower s = Py.map_chars Py.lower_char s.
Proof. induction s as [|c r IH]; simpl; congruence. Qed.

Lemma map_chars_compose (f g : ascii -> ascii) (s : string) :
  Py.map_chars f (Py.map_chars g s) = Py.map_chars (fun c => f (g c)) s.
Proof. induction s as [|c r IH]; simpl; congruence. Qed.

(** [full_process] does not see surrounding white space either. *)
Lemma full_process_strip (s : string) :
  Fuzzy.full_process (Py.strip s) = Fuzzy.full_process s.
Proof.
  unfold Fuzzy.full_process.
  rewrite !lower_as_map, !map_chars_compose.
  apply strip_map_strip.
  intros c H. rewrite isspace_lower_char. now apply blank_non_word_space.
Qed.

Lemma isascii_lstrip (s : string) : isascii s = true -> isascii (Py.lstrip s) = true.
Proof.
  induction s as [|c r IH]; cbn [Py.lstrip isascii]; [auto|].
  intros H. apply andb_prop in H. destruct H as [Hc Hr].
  destruct (Py.isspace c); [now apply IH|].
  cbn [isascii]. now rewrite Hc, Hr.
Qed.

Lemma isascii_rstrip (s : string) : isascii s = true -> isascii (Py.rstrip s) = true.
Proof.
  induction s as [|c r IH]; cbn [Py.rstrip isascii]; [auto|].
  intros H. apply andb_prop in H. destruct H as [Hc Hr].
  specialize (IH Hr). destruct (Py.rstrip r) as [|c' r'].
  - destruct (Py.isspace c); [reflexivity|]. cbn [isascii]. now rewrite Hc.
  - cbn [isascii] in *. now rewrite Hc, IH.
Qed.

Lemma isascii_strip (s : string) : isascii s = true -> isascii (Py.strip s) = true.
Proof. intros H. unfold Py.strip. now apply isascii_rstrip, isascii_lstrip. Qed.

Lemma full_process_normalize (s : string) :
  isascii s = true -> Fuzzy.full_process (normalize s) = Fuzzy.full_process s.
Proof.
  intros H. unfold normalize.
  rewrite full_process_lower by now apply isascii_strip.
  apply full_process_strip.
Qed.

(* ================================================================== *)
(** ** The dictionary *)

Lemma get_set_same (d : Dict.t) (k v : string) :
  Dict.get (Dict.set d k v) k = Some v.
Proof.
  induction d as [|[k' v'] r IH]; simpl.
  - now rewrite String.eqb_refl.
  - destruct (String.eqb k' k) eqn:E; simpl; now rewrite E.
Qed.

Lemma get_set_other (d : Dict.t) (k v q : string) :
  k <> q -> Dict.get (Dict.set d k v) q = Dict.get d q.
Proof.
  intros Hne. induction d as [|[k' v'] r IH]; simpl.
  - apply String.eqb_neq in Hne. now rewrite Hne.
  - destruct (String.eqb k' k) eqn:E; simpl.
    + apply String.eqb_eq in E. subst k'.
      apply String.eqb_neq in Hne. now rewrite Hne.
    + now rewrite IH.
Qed.

Lemma in_keys_set (d : Dict.t) (k v x : string) :
  In x (Dict.keys (Dict.set d k v)) <-> x = k \/ In x (Dict.keys d).
Proof.
  unfold Dict.keys. induction d as [|[k' v'] r IH]; simpl.
  - intuition.
  - destruct (String.eqb k' k) eqn:E; simpl.
    + apply String.eqb_eq in E. subst k'. intuition.
    + rewrite IH. intuition.
Qed.

Lemma NoDup_keys_set (d : Dict.t) (k v : string) :
  NoDup (Dict.keys d) -> NoDup (Dict.keys (Dict.set d k v)).
Proof.
  unfold Dict.keys. induction d as [|[k' v'] r IH]; simpl; intros H.
  - constructor; [intros []|constructor].
  - inversion H as [|? ? Hnin Hr]; subst.
    destruct (String.eqb k' k) eqn:E; simpl.
    + now constructor.
    + constructor; [|now apply IH].
      intros Hin. apply (in_keys_set r k v k') in Hin.
      destruct Hin as [->|Hin]; [|contradiction].
      now rewrite String.eqb_refl in E.
Qed.

Lemma get_some_in_keys (d : Dict.t) (k v : string) :
  Dict.get d k = Some v -> In k (Dict.keys d).
Proof.
  induction d as [|[k' v'] r IH]; simpl; [discriminate|].
  destruct (String.eqb k' k) eqn:E.
  - apply String.eqb_eq in E. now left.
  - intros H. right. now apply IH.
Qed.

(* ================================================================== *)
(** ** The index built from the file *)

Lemma build_index_app (data : list Entry) (e : Entry) :
  build_index (data ++ [e])
  = Dict.set (build_index data) (Py.lower (country e)) (capital e).
Proof. unfold build_index. now rewrite fold_left_app. Qed.

Lemma get_fold_index (data : list Entry) (d : Dict.t) (k : string) :
  Dict.get (fold_left index_step data d) k
  = match last_capital data k with
    | Some c => Some c
    | None => Dict.get d k
    end.
Proof.
  revert d. induction data as [|e r IH]; intros d; simpl; [reflexivity|].
  rewrite IH. destruct (last_capital r k); [reflexivity|].
  unfold index_step.
  destruct (String.eqb (Py.lower (country e)) k) eqn:E.
  - apply String.eqb_eq in E. subst k. apply get_set_same.
  - apply String.eqb_neq in E. now apply get_set_other.
Qed.

Lemma get_build_index (data : list Entry) (k : string) :
  Dict.get (build_index data) k = last_capital data k.
Proof.
  unfold build_index. rewrite get_fold_index. now destruct (last_capital data k).
Qed.

Lemma last_capital_in (data : list Entry) (k c : string) :
  last_capital data k = Some c ->
  exists e, In e data /\ Py.lower (country e) = k /\ capital e = c.
Proof.
  induction data as [|e r IH]; simpl; [discriminate|].
  destruct (last_capital r k) as [c'|] eqn:E.
  - intros H. destruct (IH H) as (e' & Hin & Hk & Hc). eauto.
  - destruct (String.eqb (Py.lower (country e)) k) eqn:Ek; [|discriminate].
    apply String.eqb_eq in Ek. intros [= <-]. eauto.
Qed.

Lemma last_capital_found (data : list Entry) (e : Entry) :
  In e data -> exists c, last_capital data (Py.lower (country e)) = Some c.
Proof.
  induction data as [|e' r IH]; simpl; [intros []|].
  intros [->|Hin].
  - destruct (last_capital r _); [eauto|].
    rewrite String.eqb_refl. eauto.
  - destruct (IH Hin) as [c Hc]. rewrite Hc. eauto.
Qed.

Lemma last_capital_none (data : list Entry) (k : string) :
  (forall e, In e data -> Py.lower (country e) <> k) ->
  last_capital data k = None.
Proof.
  induction data as [|e r IH]; simpl; intros H; [reflexivity|].
  rewrite IH by auto.
  destruct (String.eqb (Py.lower (country e)) k) eqn:E; [|reflexivity].
  apply String.eqb_eq in E. exfalso. apply (H e); auto.
Qed.

Lemma last_capital_last (l1 l2 : list Entry) (e : Entry) :
  (forall e', In e' l2 -> Py.lower (country e') <> Py.lower (country e)) ->
  last_capital (l1 ++ e :: l2) (Py.lower (country e)) = Some (capital e).
Proof.
  intros H. induction l1 as [|x l1 IH]; simpl.
  - rewrite last_capital_none by assumption. now rewrite String.eqb_refl.
  - now rewrite IH.
Qed.

Lemma NoDup_keys_build (data : list Entry) : NoDup (Dict.keys (build_index data)).
Proof.
  induction data as [|e r IH] using rev_ind.
  - constructor.
  - rewrite build_index_app. now apply NoDup_keys_set.
Qed.

Lemma lower_keys_build (data : list Entry) :
  Forall (fun k => Py.lower k = k) (Dict.keys (build_index data)).
Proof.
  induction data as [|e r IH] using rev_ind.
  - constructor.
  - rewrite build_index_app. apply Forall_forall. intros x Hx.
    apply in_keys_set in Hx. destruct Hx as [->|Hx].
    + apply lower_idem.
    + rewrite Forall_forall in IH. now apply IH.
Qed.

(* ================================================================== *)
(** ** Running the handlers *)

Ltac unfold_app :=
  unfold App.handle, App.index, App.capital, App.ask, App.select_local,
    App.save, App.confirm_country, App.append_and_index,
    App.find_similar_countries, App.find_similar_local_countries,
    App.validate_country, App.get_all_countries, App.requests_get,
    App.write_file, read_file, set_file, get_cache, set_cache,
    get_countryCapital, set_countryCapital, bind, ret, raise in *.

Ltac case_step :=
  match goal with
  | |- context [match ?x with _ => _ end] => destruct x eqn:?
  end.

Ltac run_app := unfold_app; cbn [fst snd]; repeat (case_step; cbn [fst snd]).

Lemma find_similar_local_run (env : Env) (q : string) (t : Z) (w : World) :
  App.find_similar_local_countries env q t w
  = (Ok match Dict.keys (countryCapital w) with
        | [] => []
        | _ =>
            map (fun m => (Py.capitalize (fst m), snd m))
                (filter (fun m => t <=? snd m)
                        (Fuzzy.extract (matcher_ratio env) q
                                       (Dict.keys (countryCapital w)) 5))
        end, w).
Proof.
  unfold_app. now destruct (Dict.keys (countryCapital w)).
Qed.

Lemma capital_run (env : Env) (q : string) (w : World) :
  snd (App.capital env q w) = w
  /\ exists v, fst (App.capital env q w) = Ok v.
Proof.
  unfold App.capital, bind, get_countryCapital.
  destruct (Dict.get (countryCapital w) (Py.lower q)).
  - split; [reflexivity|eexists; reflexivity].
  - rewrite find_similar_local_run.
    destruct (match Dict.keys (countryCapital w) with [] => _ | _ => _ end);
      (split; [reflexivity|eexists; reflexivity]).
Qed.

Lemma resolveExact_get (env : Env) (w : World) (q : string) :
  resolveExact env w q = Dict.get (countryCapital w) (Py.lower q).
Proof.
  unfold resolveExact, App.capital, bind, get_countryCapital.
  destruct (Dict.get (countryCapital w) (Py.lower q)); [reflexivity|].
  rewrite find_similar_local_run.
  now destruct (match Dict.keys (countryCapital w) with [] => _ | _ => _ end).
Qed.

Lemma validate_country_run (env : Env) (name : string) (w : World) :
  App.validate_country env name w =
  match http_get env (List.length (http_log w)) (App.name_url name) with
  | HttpResponse status data =>
      if status =? 200 then
        match data with
        | c :: _ => (Ok (Some (name_common c)), sent (App.name_url name) w)
        | [] => (Raise IndexError, sent (App.name_url name) w)
        end
      else (Ok None, sent (App.name_url name) w)
  | RequestException => (Ok None, sent (App.name_url name) w)
  end.
Proof.
  unfold_app.
  destruct (http_get env (List.length (http_log w)) (App.name_url name))
    as [|status data]; [reflexivity|].
  destruct (status =? 200); [|reflexivity]. now destruct data.
Qed.

Lemma validate_country_store (env : Env) (name : string) (w : World) :
  same_store w (snd (App.validate_country env name w)).
Proof.
  rewrite validate_country_run.
  destruct (http_get env (List.length (http_log w)) (App.name_url name))
    as [|status data]; [now split|].
  destruct (status =? 200); [|now split]. now destruct data.
Qed.

Lemma get_all_countries_run (env : Env) (w : World) :
  App.get_all_countries env w =
  match all_countries_cache w with
  | Some l => (Ok l, w)
  | None =>
      match http_get env (List.length (http_log w)) App.all_url with
      | HttpResponse status data =>
          if status =? 200
          then (Ok (map name_common data),
                cached (map name_common data) (sent App.all_url w))
          else (Ok [], sent App.all_url w)
      | RequestException => (Ok [], sent App.all_url w)
      end
  end.
Proof.
  unfold_app. destruct (all_countries_cache w); [reflexivity|].
  destruct (http_get env (List.length (http_log w)) App.all_url)
    as [|status data]; [reflexivity|].
  now destruct (status =? 200).
Qed.

Lemma get_all_countries_store (env : Env) (w : World) :
  same_store w (snd (App.get_all_countries env w))
  /\ exists l, fst (App.get_all_countries env w) = Ok l.
Proof.
  rewrite get_all_countries_run.
  destruct (all_countries_cache w);
    [split; [now split|eexists; reflexivity]|].
  destruct (http_get env (List.length (http_log w)) App.all_url)
    as [|status data];
    [split; [now split|eexists; reflexivity]|].
  destruct (status =? 200); (split; [now split|eexists; reflexivity]).
Qed.

Lemma find_similar_countries_store (env : Env) (name : string) (t : Z) (w : World) :
  same_store w (snd (App.find_similar_countries env name t w)).
Proof.
  unfold App.find_similar_countries, bind.
  destruct (get_all_countries_store env w) as [Hs [l Hl]].
  destruct (App.get_all_countries env w) as [r w1]. cbn [fst snd] in *.
  subst r. now destruct l.
Qed.

(** What [append_and_index] does, by the state of the file and the outcome
    of the write. *)
Lemma append_and_index_run (env : Env) (c t : string) (w : World) :
  App.append_and_index env c t w =
  match file w with
  | Unreadable => (Raise OSError, w)
  | Json data =>
      let data' := (data ++ [mkEntry c t "countryCapital"])%list in
      match disk_write env data' with
      | Written =>
          (Ok (App.success_html c t),
           mkWorld (Json data') (Dict.set (countryCapital w) (Py.lower c) t)
                   (all_countries_cache w) (http_log w))
      | OpenFailed => (Raise OSError, w)
      | DumpFailed =>
          (Raise OSError,
           mkWorld Unreadable (countryCapital w) (all_countries_cache w) (http_log w))
      end
  end.
Proof.
  unfold_app. destruct (file w) as [data|]; [|reflexivity].
  cbn zeta. destruct (disk_write env _); reflexivity.
Qed.

Lemma store_inv_same (w w' : World) :
  same_store w w' -> store_inv w -> store_inv w'.
Proof.
  intros [Hf Hd] (H1 & H2 & H3). unfold store_inv. rewrite Hf, Hd. auto.
Qed.

Lemma store_inv_startup (data : list Entry) : store_inv (startup data).
Proof.
  split; [apply NoDup_keys_build|]. split; [apply lower_keys_build|].
  simpl. now intros ? [= <-].
Qed.

Lemma store_inv_append (env : Env) (c t : string) (w : World) :
  store_inv w -> store_inv (snd (App.append_and_index env c t w)).
Proof.
  intros (H1 & H2 & H3). rewrite append_and_index_run.
  destruct (file w) as [data|] eqn:Ef;
    [|cbn [snd]; unfold store_inv; rewrite Ef; auto].
  cbn zeta. destruct (disk_write env _); cbn [snd].
  - split; [|split]; cbn [countryCapital file].
    + now apply NoDup_keys_set.
    + apply Forall_forall. intros x Hx. apply in_keys_set in Hx.
      destruct Hx as [->|Hx]; [apply lower_idem|].
      rewrite Forall_forall in H2. now apply H2.
    + intros d [= <-]. rewrite build_index_app. cbn [country capital].
      now rewrite (H3 data eq_refl).
  - unfold store_inv; rewrite Ef; auto.
  - split; [|split]; cbn [countryCapital file]; auto. discriminate.
Qed.

Lemma store_inv_handle (env : Env) (r : App.Request) (w : World) :
  store_inv w -> store_inv (snd (App.handle env r w)).
Proof.
  intros H. destruct r as [|q|c t|c|c t|c t]; cbn [App.handle].
  - exact H.
  - now rewrite (proj1 (capital_run env q w)).
  - exact H.
  - unfold_app. now repeat case_step.
  - unfold App.save, bind.
    pose proof (validate_country_store env (Py.strip c) w) as Hv.
    destruct (App.validate_country env (Py.strip c) w) as [[[name|]|e] w1];
      cbn [snd] in Hv.
    + apply store_inv_append. now apply (store_inv_same w).
    + pose proof (find_similar_countries_store env (Py.strip c) 50 w1) as Hs.
      destruct (App.find_similar_countries env (Py.strip c) 50 w1) as [[l|e] w2];
        cbn [snd] in Hs.
      * assert (store_inv w2)
          by (apply (store_inv_same w1); [|apply (store_inv_same w)]; assumption).
        now destruct l.
      * cbn [snd]. apply (store_inv_same w1); [|apply (store_inv_same w)]; assumption.
    + cbn [snd]. now apply (store_inv_same w).
  - unfold App.confirm_country, bind.
    pose proof (validate_country_store env (Py.strip c) w) as Hv.
    destruct (App.validate_country env (Py.strip c) w) as [[[name|]|e] w1];
      cbn [snd] in Hv.
    + apply store_inv_append. now apply (store_inv_same w).
    + cbn [snd]. now apply (store_inv_same w).
    + cbn [snd]. now apply (store_inv_same w).
Qed.

Lemma reachable_store_inv (env : Env) (w : World) :
  reachable env w -> store_inv w.
Proof.
  induction 1 as [data|w r _ IH].
  - apply store_inv_startup.
  - now apply store_inv_handle.
Qed.

(* ================================================================== *)
(** ** The range of difflib's rounded ratio *)

Lemma round_half_even_bounds (num den n : Z) :
  0 <= num -> 0 <= den -> 0 <= n -> num <= n * den ->
  0 <= Difflib.round_half_even num den <= n.
Proof.
  intros Hnum Hden Hn Hle.
  destruct (Z.eq_dec den 0) as [->|Hne].
  { assert (num = 0) as -> by lia.
    change (Difflib.round_half_even 0 0) with 0. lia. }
  unfold Difflib.round_half_even.
  pose proof (Z.div_mod num den Hne) as Hdm.
  pose proof (Z.mod_pos_bound num den ltac:(lia)) as Hr.
  pose proof (Z.div_pos num den Hnum ltac:(lia)) as Hq.
  assert (Hqn : num / den <= n) by (apply Z.div_le_upper_bound; lia).
  destruct (Z.ltb_spec (2 * (num mod den)) den); [lia|].
  assert (num / den < n) by nia.
  destruct (Z.ltb_spec den (2 * (num mod den))); [lia|].
  destruct (Z.even (num / den)); lia.
Qed.

Lemma to_double_bounds (num den n : Z) :
  0 <= den -> 0 <= n -> num <= n * den ->
  0 <= fst (Difflib.to_double num den)
       <= n * 2 ^ snd (Difflib.to_double num den).
Proof.
  intros Hden Hn Hle. unfold Difflib.to_double.
  destruct (Z.leb_spec num 0) as [_|Hpos]; [cbn; lia|].
  cbn [fst snd].
  set (k := if _ <? _ then _ else _).
  pose proof (Z.pow_nonneg 2 k ltac:(lia)) as Hk.
  apply round_half_even_bounds; nia.
Qed.

Lemma intr_100_ratio_range (matches length : nat) :
  (2 * matches <= length)%nat ->
  0 <= Difflib.intr_100_ratio matches length <= 100.
Proof.
  intros H. unfold Difflib.intr_100_ratio.
  destruct length as [|n]; [lia|].
  pose proof (to_double_bounds (2 * Z.of_nat matches) (Z.of_nat (S n)) 1
                ltac:(lia) ltac:(lia) ltac:(lia)) as H1.
  destruct (Difflib.to_double (2 * Z.of_nat matches) (Z.of_nat (S n))) as [m k].
  cbn [fst snd] in H1.
  pose proof (to_double_bounds (100 * m) (2 ^ k) 100
                ltac:(lia) ltac:(lia) ltac:(lia)) as H2.
  destruct (Difflib.to_double (100 * m) (2 ^ k)) as [m' k'].
  cbn [fst snd] in H2.
  pose proof (Z.pow_nonneg 2 k' ltac:(lia)).
  apply round_half_even_bounds; lia.
Qed.

Section Windows.
Variables a b : list ascii.

Lemma j2len_get_bound (n blo : nat) (j2len : list (nat * nat)) (j : nat) :
  row_ok n blo j2len ->
  (Difflib.j2len_get j2len j <= n
   /\ Difflib.j2len_get j2len j <= j + 1 - blo)%nat.
Proof.
  intros Hrow. unfold Difflib.j2len_get.
  destruct (find _ j2len) as [[j' len]|] eqn:E; [|cbn; lia].
  apply find_some in E. destruct E as [Hin Hj]. cbn [fst snd] in *.
  apply Nat.eqb_eq in Hj. subst j'. exact (Hrow j len Hin).
Qed.

Lemma scan_b_window (i alo ahi blo bhi : nat) (j2len : list (nat * nat))
      (best : Difflib.Match) :
  (alo <= i < ahi)%nat ->
  row_ok (i - alo) blo j2len ->
  in_window alo ahi blo bhi best ->
  in_window alo ahi blo bhi (fst (Difflib.scan_b a b i blo bhi j2len best))
  /\ row_ok (S i - alo) blo (snd (Difflib.scan_b a b i blo bhi j2len best)).
Proof.
  intros Hi Hrow Hbest. unfold Difflib.scan_b.
  set (js := filter _ _).
  assert (Hjs : forall j, In j js -> (blo <= j < bhi)%nat).
  { intros j Hj. apply filter_In in Hj. destruct Hj as [_ Hj].
    apply andb_prop in Hj. destruct Hj as [H1 H2].
    apply Nat.leb_le in H1. apply Nat.ltb_lt in H2. lia. }
  clearbody js.
  assert (Hnew : row_ok (S i - alo) blo []) by (intros ? ? []).
  revert Hbest Hnew. generalize (@nil (nat * nat)) as newj2len.
  revert best. induction js as [|j js IH]; intros best newj2len Hbest Hnew.
  - now split.
  - cbn [fold_left].
    assert (Hj : (blo <= j < bhi)%nat) by (apply Hjs; now left).
    set (k := (match j with O => 0 | S j' => Difflib.j2len_get j2len j' end + 1)%nat).
    assert (Hk : (k <= S i - alo /\ k <= j + 1 - blo)%nat).
    { subst k. destruct j as [|j']; [lia|].
      destruct (j2len_get_bound (i - alo) blo j2len j' Hrow). 
      destruct (Nat.eq_dec (S j') blo); lia. }
    assert (Hrow' : row_ok (S i - alo) blo ((j, k) :: newj2len)).
    { intros j0 len [[= <- <-]|Hin]; [exact Hk|now apply Hnew]. }
    destruct (Difflib.size best <? k)%nat.
    + apply IH; [intros; apply Hjs; now right| |exact Hrow'].
      cbn. lia.
    + apply IH; [intros; apply Hjs; now right|exact Hbest|exact Hrow'].
Qed.

Lemma extend_left_window (fuel alo ahi blo bhi : nat) (m : Difflib.Match) :
  in_window alo ahi blo bhi m ->
  in_window alo ahi blo bhi (Difflib.extend_left a b fuel alo blo m).
Proof.
  revert m. induction fuel as [|fuel IH]; intros [[i j] k] H; [exact H|].
  cbn [Difflib.extend_left].
  destruct ((alo <? i)%nat && (blo <? j)%nat) eqn:E; cbn [andb]; [|exact H].
  destruct (Ascii.eqb _ _); [|exact H].
  apply andb_prop in E. destruct E as [E1 E2].
  apply Nat.ltb_lt in E1, E2. apply IH. cbn in *. lia.
Qed.

Lemma extend_right_window (fuel alo ahi blo bhi : nat) (m : Difflib.Match) :
  in_window alo ahi blo bhi m ->
  in_window alo ahi blo bhi (Difflib.extend_right a b fuel ahi bhi m).
Proof.
  revert m. induction fuel as [|fuel IH]; intros [[i j] k] H; [exact H|].
  cbn [Difflib.extend_right].
  destruct ((i + k <? ahi)%nat && (j + k <? bhi)%nat) eqn:E; cbn [andb];
    [|exact H].
  destruct (Ascii.eqb _ _); [|exact H].
  apply andb_prop in E. destruct E as [E1 E2].
  apply Nat.ltb_lt in E1, E2. apply IH. cbn in *. lia.
Qed.

Lemma rows_window (alo ahi blo bhi len start : nat)
      (st : Difflib.Match * list (nat * nat)) :
  (alo <= start)%nat -> (start + len <= ahi)%nat ->
  in_window alo ahi blo bhi (fst st) ->
  row_ok (start - alo) blo (snd st) ->
  in_window alo ahi blo bhi
    (fst (fold_left
            (fun (st : Difflib.Match * list (nat * nat)) (i : nat) =>
               Difflib.scan_b a b i blo bhi (snd st) (fst st))
            (seq start len) st)).
Proof.
  revert start st. induction len as [|len IH]; intros start st Hs He Hb Hr.
  - exact Hb.
  - cbn [seq fold_left].
    destruct (scan_b_window start alo ahi blo bhi (snd st) (fst st)
                ltac:(lia) Hr Hb) as [Hb' Hr'].
    apply IH; [lia|lia|exact Hb'|].
    exact Hr'.
Qed.

Lemma find_longest_match_window (alo ahi blo bhi : nat) :
  (alo <= ahi)%nat -> (blo <= bhi)%nat ->
  in_window alo ahi blo bhi (Difflib.find_longest_match a b alo ahi blo bhi).
Proof.
  intros Ha Hb. unfold Difflib.find_longest_match.
  apply extend_right_window, extend_left_window.
  apply rows_window; cbn [fst snd]; try lia.
  - cbn. lia.
  - intros ? ? [].
Qed.

Lemma matched_le (fuel alo ahi blo bhi : nat) :
  (alo <= ahi)%nat -> (blo <= bhi)%nat ->
  (Difflib.matched a b fuel alo ahi blo bhi <= ahi - alo
   /\ Difflib.matched a b fuel alo ahi blo bhi <= bhi - blo)%nat.
Proof.
  revert alo ahi blo bhi.
  induction fuel as [|fuel IH]; intros alo ahi blo bhi Ha Hb; [cbn; lia|].
  cbn [Difflib.matched].
  pose proof (find_longest_match_window alo ahi blo bhi Ha Hb) as Hw.
  destruct (Difflib.find_longest_match a b alo ahi blo bhi) as [[i j] k].
  cbn in Hw. destruct k as [|k]; [lia|].
  pose proof (IH alo i blo j ltac:(lia) ltac:(lia)) as [L1 L2].
  pose proof (IH (i + S k) ahi (j + S k) bhi ltac:(lia) ltac:(lia))%nat
    as [R1 R2].
  destruct ((alo <? i)%nat && (blo <? j)%nat);
    destruct ((i + S k <? ahi)%nat && (j + S k <? bhi)%nat); lia.
Qed.

Lemma matches_le : (2 * Difflib.matches a b <= List.length a + List.length b)%nat.
Proof.
  unfold Difflib.matches.
  destruct (matched_le (S (List.length a)) 0 (List.length a) 0 (List.length b))
    as [H1 H2]; lia.
Qed.
End Windows.

(** With difflib the rounded ratio is a percentage, whatever the strings. *)
Lemma difflib_ratio_range (s1 s2 : string) :
  0 <= Difflib.matcher_ratio s1 s2 <= 100.
Proof.
  unfold Difflib.matcher_ratio. apply intr_100_ratio_range, matches_le.
Qed.

(* ================================================================== *)
(** ** The matcher *)

Section MatcherFacts.
Variable m : string -> string -> Z.

Lemma ratio_equal (s : string) : Fuzzy.ratio m s s = 100.
Proof. unfold Fuzzy.ratio. now rewrite String.eqb_refl. Qed.

Lemma ratio_range (s1 s2 : string) :
  0 <= m s1 s2 <= 100 -> 0 <= Fuzzy.ratio m s1 s2 <= 100.
Proof.
  intros H. unfold Fuzzy.ratio.
  destruct (String.eqb s1 s2); [lia|].
  destruct ((String.length s1 =? 0)%nat || (String.length s2 =? 0)%nat); lia.
Qed.

Lemma ratio_sym (s1 s2 : string) :
  m s1 s2 = m s2 s1 -> Fuzzy.ratio m s1 s2 = Fuzzy.ratio m s2 s1.
Proof.
  intros H. unfold Fuzzy.ratio.
  rewrite (String.eqb_sym s2 s1).
  destruct (String.eqb s1 s2); [reflexivity|].
  rewrite (orb_comm (String.length s2 =? 0)%nat).
  now destruct ((String.length s1 =? 0)%nat || (String.length s2 =? 0)%nat).
Qed.

Lemma in_insert_desc (x y : string * Z) (l : list (string * Z)) :
  In x (Fuzzy.insert_desc y l) <-> x = y \/ In x l.
Proof.
  induction l as [|z r IH]; simpl; [intuition|].
  destruct (snd y <? snd z); simpl; [rewrite IH|]; intuition.
Qed.

Lemma in_sorted_desc (x : string * Z) (l : list (string * Z)) :
  In x (Fuzzy.sorted_desc l) <-> In x l.
Proof.
  induction l as [|y r IH]; simpl; [reflexivity|].
  rewrite in_insert_desc, IH. intuition.
Qed.

Lemma in_firstn {A} (n : nat) (l : list A) (x : A) :
  In x (firstn n l) -> In x l.
Proof.
  revert l. induction n as [|n IH]; intros [|y r]; simpl; try tauto.
  intros [->|H]; auto.
Qed.

(** [process.extract] returns at most [limit] pairs, each a choice of the
    corpus with the score of the query against it. *)
Lemma extract_sound (q : string) (choices : list string) (limit : nat) :
  (List.length (Fuzzy.extract m q choices limit) <= limit)%nat
  /\ forall x s, In (x, s) (Fuzzy.extract m q choices limit) ->
                 In x choices /\ s = Fuzzy.score m q x.
Proof.
  unfold Fuzzy.extract, Fuzzy.nlargest. split; [apply firstn_le_length|].
  intros x s H. apply in_firstn in H.
  apply (proj1 (in_sorted_desc _ _)) in H.
  unfold Fuzzy.extractWithoutOrder in H.
  apply (proj1 (filter_In _ _ _)) in H. destruct H as [H _].
  apply (proj1 (in_map_iff _ _ _)) in H.
  destruct H as (c & [= <- <-] & Hc). auto.
Qed.
End MatcherFacts.

Lemma suggestLocal_eq (env : Env) (w : World) (q : string) :
  suggestLocal env w q
  = match Dict.keys (countryCapital w) with
    | [] => []
    | _ =>
        map (fun m => (Py.capitalize (fst m), snd m))
            (filter (fun m => 60 <=? snd m)
                    (Fuzzy.extract (matcher_ratio env) q
                                   (Dict.keys (countryCapital w)) 5))
    end.
Proof. unfold suggestLocal. now rewrite find_similar_local_run. Qed.

(* ================================================================== *)
(** ** The scenarios of the specification, run *)

Example exact_hit :
  fst (App.capital offline_env "FRANCE" france_store)
  = Ok (App.success_html "France" "Paris")
  /\ resolveExact offline_env france_store "france" = Some "Paris".
Proof. split; reflexivity. Qed.

Example misspelt_gets_suggestions :
  resolveExact offline_env france_store "Franse" = None
  /\ fst (App.capital offline_env "Franse" france_store)
     = Ok (App.suggestions_html "Franse" [("France", 83)] "").
Proof. split; vm_compute; reflexivity. Qed.

Example remote_unreachable :
  fst (App.find_similar_countries offline_env "Atlantis" 50 france_store) = Ok []
  /\ fst (App.save offline_env "Atlantis" "Poseidonis" france_store)
     = Ok (App.invalid_country_html "Atlantis").
Proof. split; reflexivity. Qed.

(** Rounding in double precision: 46/80 is a little under 0.575, and 100
    times it a little under 57.5. *)
Example double_rounding : Difflib.intr_100_ratio 23 80 = 57.
Proof. reflexivity. Qed.

(* ================================================================== *)
(** ** Local suggestions *)

(** C4.  Whatever the query and the store, [suggestLocal] returns at most
    five candidates; each has a score of at least 60, which is the score of
    the query against a key of [countryCapital], and is that key in display
    case: every candidate comes from the local corpus. *)
Theorem suggestLocal_sound (env : Env) (w : World) (q : string) :
  (List.length (suggestLocal env w q) <= 5)%nat
  /\ forall name s,
      In (name, s) (suggestLocal env w q) ->
      60 <= s
      /\ (exists k, In k (Dict.keys (countryCapital w))
                    /\ name = Py.capitalize k
                    /\ s = Fuzzy.score (matcher_ratio env) q k).
Proof.
  rewrite suggestLocal_eq.
  destruct (extract_sound (matcher_ratio env) q (Dict.keys (countryCapital w)) 5)
    as [Hlen Hin].
  destruct (Dict.keys (countryCapital w)) as [|k0 ks] eqn:Ek.
  - split; [simpl; lia|intros ? ? []].
  - rewrite <- Ek in *. split.
    + rewrite length_map.
      eapply Nat.le_trans; [apply filter_length_le|exact Hlen].
    + intros name s H.
      apply (proj1 (in_map_iff _ _ _)) in H.
      destruct H as ([k s'] & [= <- <-] & H).
      apply (proj1 (filter_In _ _ _)) in H. destruct H as [H Hs].
      cbn [fst snd] in *.
      destruct (Hin k s' H) as [Hk Hscore].
      split; [now apply Z.leb_le|]. now exists k.
Qed.

(** The scenario of the specification: with France in the store, the
    misspelt "Franse" is not found and France is suggested, with score 83. *)
Lemma suggestLocal_sound_witness :
  In ("France", 83) (suggestLocal offline_env france_store "franse")
  /\ 60 <= 83
  /\ (exists k, In k (Dict.keys (countryCapital france_store))
                /\ "France" = Py.capitalize k
                /\ 83 = Fuzzy.score (matcher_ratio offline_env) "franse" k).
Proof.
  assert (Hin : In ("France", 83) (suggestLocal offline_env france_store "franse"))
    by (vm_compute; left; reflexivity).
  split; [exact Hin|].
  destruct (suggestLocal_sound offline_env france_store "franse") as [_ H].
  exact (H "France" 83 Hin).
Defined.

(* ================================================================== *)
(** ** Frame of the local query path *)

(** C9.  The exact lookup and the local suggestions change nothing: after
    [/capital] and after [find_similar_local_countries] the file, the
    dictionary, the cache of the remote directory and the log of outbound
    requests are what they were, so no request was sent; neither raises. *)
Theorem local_query_frame (env : Env) (q : string) (w : World) :
  snd (App.capital env q w) = w
  /\ (exists v, fst (App.capital env q w) = Ok v)
  /\ (forall t, snd (App.find_similar_local_countries env q t w) = w)
  /\ (forall t, exists l, fst (App.find_similar_local_countries env q t w) = Ok l)
  /\ http_log (snd (App.capital env q w)) = http_log w.
Proof.
  destruct (capital_run env q w) as [Hw Hv].
  split; [exact Hw|]. split; [exact Hv|].
  split; [intros t; now rewrite find_similar_local_run|].
  split; [intros t; rewrite find_similar_local_run; eexists; reflexivity|].
  now rewrite Hw.
Qed.

(* ================================================================== *)
(** ** The similarity score *)

(** The claim as the specification words it fails on punctuation: the
    default processor of [process.extract] blanks the hyphen, the two
    processed strings coincide and [fuzz.ratio] answers 100 without running
    the matcher, while the trimmed, lower-cased strings differ. *)
Lemma score_100_on_distinct_normalized :
  Fuzzy.score Difflib.matcher_ratio "Guinea-Bissau" "guinea bissau" = 100
  /\ normalize "Guinea-Bissau" <> normalize "guinea bissau"
  /\ In ("guinea bissau", 100)
        (Fuzzy.extract Difflib.matcher_ratio "Guinea-Bissau" ["guinea bissau"] 5).
Proof.
  split; [reflexivity|]. split; [discriminate|]. left. reflexivity.
Qed.

(** With difflib as the matcher the score also depends on the order of its
    arguments. *)
Example score_not_symmetric_with_difflib :
  Fuzzy.score Difflib.matcher_ratio "tide" "diet" = 25
  /\ Fuzzy.score Difflib.matcher_ratio "diet" "tide" = 50.
Proof. split; reflexivity. Qed.

(** C5, amended.  Every pair [process.extract] returns carries the score of
    the query against that corpus entry.  The score is [fuzz.ratio] of the
    two strings after [full_process] (non-word characters blanked,
    lower-cased, trimmed), and it is 100 whenever the processed strings
    coincide.  On ASCII strings it is the score of the normalized query
    against the normalized entry, and it is 100 when the normalized strings
    are identical or the strings differ in case only.  It lies in [0,100]
    with difflib as the matcher and with any matcher whose rounded ratio
    does, and is symmetric on a pair on which the matcher is. *)
Theorem score_properties (env : Env) (q c : string) :
  (forall choices limit x s,
      In (x, s) (Fuzzy.extract (matcher_ratio env) q choices limit) ->
      In x choices /\ s = Fuzzy.score (matcher_ratio env) q x)
  /\ Fuzzy.score (matcher_ratio env) q c
     = Fuzzy.ratio (matcher_ratio env) (Fuzzy.full_process q) (Fuzzy.full_process c)
  /\ (Fuzzy.full_process q = Fuzzy.full_process c ->
      Fuzzy.score (matcher_ratio env) q c = 100)
  /\ (isascii q = true -> isascii c = true ->
      Fuzzy.score (matcher_ratio env) q c
      = Fuzzy.score (matcher_ratio env) (normalize q) (normalize c))
  /\ (isascii q = true -> isascii c = true ->
      normalize q = normalize c -> Fuzzy.score (matcher_ratio env) q c = 100)
  /\ (isascii q = true -> isascii c = true ->
      Py.lower q = Py.lower c -> Fuzzy.score (matcher_ratio env) q c = 100)
  /\ 0 <= Fuzzy.score Difflib.matcher_ratio q c <= 100
  /\ (0 <= matcher_ratio env (Fuzzy.full_process q) (Fuzzy.full_process c) <= 100 ->
      0 <= Fuzzy.score (matcher_ratio env) q c <= 100)
  /\ (matcher_ratio env (Fuzzy.full_process q) (Fuzzy.full_process c)
      = matcher_ratio env (Fuzzy.full_process c) (Fuzzy.full_process q) ->
      Fuzzy.score (matcher_ratio env) q c = Fuzzy.score (matcher_ratio env) c q).
Proof.
  assert (Hfp : Fuzzy.full_process q = Fuzzy.full_process c ->
                Fuzzy.score (matcher_ratio env) q c = 100).
  { intros H. unfold Fuzzy.score. rewrite H. apply ratio_equal. }
  split.
  { intros choices limit x s H.
    now apply (proj2 (extract_sound (matcher_ratio env) q choices limit)). }
  split; [reflexivity|].
  split; [exact Hfp|].
  split.
  { intros Hq Hc. unfold Fuzzy.score.
    now rewrite (full_process_normalize q Hq), (full_process_normalize c Hc). }
  split.
  { intros Hq Hc H. apply Hfp.
    rewrite <- (full_process_normalize q Hq), <- (full_process_normalize c Hc).
    now rewrite H. }
  split.
  { intros Hq Hc H. apply Hfp.
    rewrite <- (full_process_lower q Hq), <- (full_process_lower c Hc).
    now rewrite H. }
  split.
  { apply ratio_range, difflib_ratio_range. }
  split.
  { intros H. now apply ratio_range. }
  intros H. now apply ratio_sym.
Qed.

Lemma score_properties_witness :
  Fuzzy.score Difflib.matcher_ratio " FRANCE " "france"
  = Fuzzy.score Difflib.matcher_ratio (normalize " FRANCE ") (normalize "france")
  /\ Fuzzy.score Difflib.matcher_ratio " FRANCE " "france" = 100
  /\ Fuzzy.score Difflib.matcher_ratio "Guinea-Bissau" "guinea bissau" = 100
  /\ Fuzzy.score Difflib.matcher_ratio "FRANCE" "france" = 100
  /\ 0 <= Fuzzy.score Difflib.matcher_ratio "franse" "france" <= 100
  /\ Fuzzy.score Difflib.matcher_ratio "franse" "france"
     = Fuzzy.score Difflib.matcher_ratio "france" "franse"
  /\ (In "france" ["france"]
      /\ 83 = Fuzzy.score Difflib.matcher_ratio "franse" "france").
Proof.
  destruct (score_properties offline_env " FRANCE " "france")
    as (_ & _ & _ & Hsame & Hnorm & _).
  destruct (score_properties offline_env "Guinea-Bissau" "guinea bissau")
    as (_ & _ & Hfp & _).
  destruct (score_properties offline_env "FRANCE" "france")
    as (_ & _ & _ & _ & _ & Hlow & _).
  destruct (score_properties offline_env "franse" "france")
    as (Hex & _ & _ & _ & _ & _ & _ & Hrange & Hsym).
  split; [exact (Hsame eq_refl eq_refl)|].
  split; [exact (Hnorm eq_refl eq_refl eq_refl)|].
  split; [exact (Hfp eq_refl)|].
  split; [exact (Hlow eq_refl eq_refl eq_refl)|].
  split; [apply Hrange; vm_compute; split; discriminate|].
  split; [apply Hsym; vm_compute; reflexivity|].
  apply (Hex ["france"] 5%nat "france" 83). vm_compute. left. reflexivity.
Defined.

(* ================================================================== *)
(** ** The remote directory *)

(** C6.  [get_all_countries] with a filled cache returns it and sends
    nothing.  With the cache unset it sends exactly one request, for the
    list of all countries; on a 200 response it stores the names and
    returns them; when the request raises or the status is not 200 it
    returns the empty list, raises nothing and leaves the cache unset, so
    that the next call sends the request again. *)
Theorem get_all_countries_cache (env : Env) (w : World) :
  (forall l, all_countries_cache w = Some l ->
             App.get_all_countries env w = (Ok l, w))
  /\ (all_countries_cache w = None ->
      http_log (snd (App.get_all_countries env w)) = (http_log w ++ [App.all_url])%list
      /\ (forall data,
             http_get env (List.length (http_log w)) App.all_url = HttpResponse 200 data ->
             App.get_all_countries env w
             = (Ok (map name_common data),
                cached (map name_common data) (sent App.all_url w)))
      /\ (http_get env (List.length (http_log w)) App.all_url = RequestException
          \/ (exists status data,
                 http_get env (List.length (http_log w)) App.all_url
                 = HttpResponse status data /\ status <> 200) ->
          App.get_all_countries env w = (Ok [], sent App.all_url w)
          /\ all_countries_cache (snd (App.get_all_countries env w)) = None
          /\ http_log (snd (App.get_all_countries env
                              (snd (App.get_all_countries env w))))
             = (http_log w ++ [App.all_url; App.all_url])%list)).
Proof.
  split.
  { intros l H. rewrite get_all_countries_run. now rewrite H. }
  intros Hnone.
  assert (Hfail : forall w', all_countries_cache w' = None ->
            http_log (snd (App.get_all_countries env w'))
            = (http_log w' ++ [App.all_url])%list).
  { intros w' H'. rewrite get_all_countries_run, H'.
    destruct (http_get env _ _) as [|status data]; [reflexivity|].
    now destruct (status =? 200). }
  split; [now apply Hfail|]. split.
  { intros data H. rewrite get_all_countries_run, Hnone, H. reflexivity. }
  intros H.
  assert (E : App.get_all_countries env w = (Ok [], sent App.all_url w)).
  { rewrite get_all_countries_run, Hnone.
    destruct H as [->|(status & data & -> & Hs)]; [reflexivity|].
    apply Z.eqb_neq in Hs. now rewrite Hs. }
  rewrite E. cbn [snd]. split; [reflexivity|]. split; [exact Hnone|].
  rewrite Hfail by exact Hnone. cbn [sent http_log].
  now rewrite <- app_assoc.
Qed.

(** A cache hit on a filled store; a failed first fetch that leaves the
    cache unset; the retry that fills it. *)
Lemma get_all_countries_cache_witness :
  App.get_all_countries offline_env (cached ["France"] france_store)
  = (Ok ["France"], cached ["France"] france_store)
  /\ App.get_all_countries (flaky_env ["France"]) france_store
     = (Ok [], sent App.all_url france_store)
  /\ App.get_all_countries (flaky_env ["France"]) (sent App.all_url france_store)
     = (Ok ["France"],
        cached ["France"] (sent App.all_url (sent App.all_url france_store))).
Proof.
  split.
  { apply (proj1 (get_all_countries_cache offline_env
                    (cached ["France"] france_store))). reflexivity. }
  destruct (proj2 (get_all_countries_cache (flaky_env ["France"]) france_store)
              eq_refl) as (_ & _ & Hfail).
  destruct (proj2 (get_all_countries_cache (flaky_env ["France"])
                     (sent App.all_url france_store)) eq_refl) as (_ & Hok & _).
  split.
  - apply Hfail. left. reflexivity.
  - apply (Hok [mkCountry "France"]). reflexivity.
Defined.

(** C8.  [validate_country] answers "not found" and raises nothing, both
    when the request raises and when the response has a status other than
    200; it names a country only on a 200 response, and then the first
    match of the directory. *)
Theorem validate_country_not_found (env : Env) (name : string) (w : World) :
  (http_get env (List.length (http_log w)) (App.name_url name) = RequestException ->
   App.validate_country env name w = (Ok None, sent (App.name_url name) w))
  /\ (forall status data,
         http_get env (List.length (http_log w)) (App.name_url name)
         = HttpResponse status data ->
         status <> 200 ->
         App.validate_country env name w = (Ok None, sent (App.name_url name) w))
  /\ (forall canonical,
         fst (App.validate_country env name w) = Ok (Some canonical) ->
         exists rest,
           http_get env (List.length (http_log w)) (App.name_url name)
           = HttpResponse 200 (mkCountry canonical :: rest))
  /\ (forall canonical rest,
         http_get env (List.length (http_log w)) (App.name_url name)
         = HttpResponse 200 (mkCountry canonical :: rest) ->
         App.validate_country env name w
         = (Ok (Some canonical), sent (App.name_url name) w)).
Proof.
  rewrite validate_country_run.
  split; [intros H; now rewrite H|].
  split.
  { intros status data H Hs. rewrite H. apply Z.eqb_neq in Hs. now rewrite Hs. }
  split.
  { intros canonical.
    destruct (http_get env (List.length (http_log w)) (App.name_url name))
      as [|status data]; [discriminate|].
    destruct (Z.eqb_spec status 200) as [->|_]; [|discriminate].
    destruct data as [|[c] rest]; [discriminate|].
    cbn [fst name_common]. intros [= ->]. now exists rest. }
  intros canonical rest H. now rewrite H.
Qed.

Lemma validate_country_not_found_witness :
  App.validate_country offline_env "Atlantis" france_store
  = (Ok None, sent (App.name_url "Atlantis") france_store)
  /\ App.validate_country
       (mkEnv Difflib.matcher_ratio (fun _ _ => HttpResponse 404 [])
              (fun _ => Written))
       "Atlantis" france_store
     = (Ok None, sent (App.name_url "Atlantis") france_store)
  /\ (exists rest,
         http_get (directory_env "Germany") 0 (App.name_url "Deutschland")
         = HttpResponse 200 (mkCountry "Germany" :: rest))
  /\ App.validate_country (directory_env "Germany") "Deutschland" france_store
     = (Ok (Some "Germany"), sent (App.name_url "Deutschland") france_store).
Proof.
  split.
  { apply (proj1 (validate_country_not_found offline_env "Atlantis" france_store)).
    reflexivity. }
  split.
  { apply (proj1 (proj2 (validate_country_not_found _ "Atlantis" france_store))
             404 []); [reflexivity|discriminate]. }
  destruct (validate_country_not_found (directory_env "Germany")
              "Deutschland" france_store) as (_ & _ & Honly & Hok).
  split; [apply Honly; reflexivity|].
  apply (Hok "Germany" []). reflexivity.
Defined.

(* ================================================================== *)
(** ** Exact lookup *)

Lemma reachable_lookup (env : Env) (w : World) (data : list Entry) (q : string) :
  reachable env w -> file w = Json data ->
  resolveExact env w q = last_capital data (Py.lower q).
Proof.
  intros Hr Hf. rewrite resolveExact_get.
  destruct (reachable_store_inv env w Hr) as (_ & _ & Hidx).
  rewrite (Hidx data Hf). apply get_build_index.
Qed.

(** Two stores on which the claim about variants fails: a blank around the
    name is not trimmed by the lookup, and of two records for one country
    the later capital is the one returned. *)
Lemma resolveExact_variant_missed :
  (reachable offline_env france_store
   /\ file france_store = Json [france]
   /\ In france [france]
   /\ normalize " France " = normalize (country france)
   /\ resolveExact offline_env france_store " France " = None)
  /\ (In france [france; lutetia]
      /\ normalize "france" = normalize (country france)
      /\ resolveExact offline_env (startup [france; lutetia]) "france"
         = Some "Lutetia"
      /\ capital france = "Paris").
Proof.
  split.
  - split; [apply reach_startup|]. repeat split. now left.
  - repeat split. now left.
Qed.

(** C1, amended.  In a reachable state whose file holds [data], inputs that
    differ in case only resolve alike, and for a stored entry every case
    variant of its country name, its lower-cased trimmed name included when
    the name carries no surrounding white space, resolves to the stored
    capital, provided the records for that country agree on the capital. *)
Theorem resolveExact_case_variants (env : Env) (w : World) (data : list Entry) :
  reachable env w -> file w = Json data ->
  (forall s s', Py.lower s = Py.lower s' ->
                resolveExact env w s = resolveExact env w s')
  /\ (forall e s,
         In e data ->
         Py.lower s = Py.lower (country e) ->
         (forall e', In e' data ->
                     Py.lower (country e') = Py.lower (country e) ->
                     capital e' = capital e) ->
         resolveExact env w s = Some (capital e))
  /\ (forall e,
         In e data ->
         Py.strip (country e) = country e ->
         (forall e', In e' data ->
                     Py.lower (country e') = Py.lower (country e) ->
                     capital e' = capital e) ->
         resolveExact env w (normalize (country e)) = Some (capital e)).
Proof.
  intros Hr Hf.
  assert (Hvar : forall e s,
             In e data ->
             Py.lower s = Py.lower (country e) ->
             (forall e', In e' data ->
                         Py.lower (country e') = Py.lower (country e) ->
                         capital e' = capital e) ->
             resolveExact env w s = Some (capital e)).
  { intros e s Hin Hs Hagree.
    rewrite (reachable_lookup env w data s Hr Hf), Hs.
    destruct (last_capital_found data e Hin) as [c Hc]. rewrite Hc.
    destruct (last_capital_in data _ c Hc) as (e' & Hin' & Hk & <-).
    f_equal. now apply Hagree. }
  split.
  { intros s s' H. rewrite !resolveExact_get. now rewrite H. }
  split; [exact Hvar|].
  intros e Hin Hstrip Hagree. apply Hvar; auto.
  unfold normalize. rewrite Hstrip. apply lower_idem.
Qed.

Lemma resolveExact_case_variants_witness :
  resolveExact offline_env france_store "FRANCE"
  = resolveExact offline_env france_store "france"
  /\ resolveExact offline_env france_store "fRaNcE" = Some "Paris"
  /\ resolveExact offline_env france_store (normalize "France") = Some "Paris".
Proof.
  destruct (resolveExact_case_variants offline_env france_store [france]
              (reach_startup offline_env [france]) eq_refl)
    as (Hsame & Hvar & Hnorm).
  assert (Hagree : forall e', In e' [france] ->
                     Py.lower (country e') = Py.lower (country france) ->
                     capital e' = capital france).
  { intros e' [<-|[]] _. reflexivity. }
  split; [apply Hsame; reflexivity|]. split.
  - apply (Hvar france "fRaNcE"); [now left|reflexivity|exact Hagree].
  - apply (Hnorm france); [now left|reflexivity|exact Hagree].
Defined.

(* ================================================================== *)
(** ** Validate, then persist *)

(** Once the directory has named the country, [save] and [confirm_country]
    are the shared tail run on the canonical name and the capital in
    display case. *)
Lemma save_validated (env : Env) (w : World) (c t canonical : string)
      (rest : list CountryJson) :
  http_get env (List.length (http_log w)) (App.name_url (Py.strip c))
  = HttpResponse 200 (mkCountry canonical :: rest) ->
  App.save env c t w
  = App.append_and_index env canonical (Py.capitalize (Py.strip t))
                         (sent (App.name_url (Py.strip c)) w)
  /\ App.confirm_country env c t w
     = App.append_and_index env canonical (Py.capitalize (Py.strip t))
                            (sent (App.name_url (Py.strip c)) w).
Proof.
  intros H. unfold App.save, App.confirm_country, bind.
  now rewrite validate_country_run, H.
Qed.

(** A directory whose canonical name carries a leading blank: the entry is
    stored under that name, and the trimmed, lower-cased name is not
    found. *)
Lemma save_then_normalized_lookup_misses :
  fst (App.validate_country (directory_env " Germany") (Py.strip "Deutschland")
                            (startup []))
  = Ok (Some " Germany")
  /\ App.save (directory_env " Germany") "Deutschland" "berlin" (startup [])
     = (Ok (App.success_html " Germany" "Berlin"),
        mkWorld (Json [mkEntry " Germany" "Berlin" "countryCapital"])
                [(" germany", "Berlin")] None
                [App.name_url "Deutschland"])
  /\ resolveExact (directory_env " Germany")
       (snd (App.save (directory_env " Germany") "Deutschland" "berlin"
                      (startup [])))
       (normalize " Germany")
     = None.
Proof. repeat split. Qed.

(** C2, amended.  When the directory answers the name lookup with the
    canonical name, the file can be read and the write completes, [save]
    (and likewise [confirm_country]) shows the success page, appends to
    the file the entry made of the canonical name and the capital in
    display case, and afterwards the lower-cased canonical name, like any
    case variant of it, resolves to that capital; so does the normalized
    canonical name when the canonical name has no white space around it. *)
Theorem save_persists_canonical (env : Env) (w : World) (c t canonical : string)
      (rest : list CountryJson) (data : list Entry) :
  http_get env (List.length (http_log w)) (App.name_url (Py.strip c))
  = HttpResponse 200 (mkCountry canonical :: rest) ->
  file w = Json data ->
  disk_write env (data ++ [saved_entry canonical t]) = Written ->
  fst (App.save env c t w)
  = Ok (App.success_html canonical (Py.capitalize (Py.strip t)))
  /\ file (snd (App.save env c t w)) = Json (data ++ [saved_entry canonical t])
  /\ resolveExact env (snd (App.save env c t w)) (Py.lower canonical)
     = Some (Py.capitalize (Py.strip t))
  /\ (forall q, Py.lower q = Py.lower canonical ->
                resolveExact env (snd (App.save env c t w)) q
                = Some (Py.capitalize (Py.strip t)))
  /\ (Py.strip canonical = canonical ->
      resolveExact env (snd (App.save env c t w)) (normalize canonical)
      = Some (Py.capitalize (Py.strip t)))
  /\ App.confirm_country env c t w = App.save env c t w.
Proof.
  intros Hv Hf Hw.
  destruct (save_validated env w c t canonical rest Hv) as [Hs Hc].
  rewrite Hc, Hs, append_and_index_run. cbn [sent file].
  rewrite Hf. cbn zeta. unfold saved_entry in Hw. rewrite Hw.
  cbn [fst snd file].
  assert (Hq : forall q, Py.lower q = Py.lower canonical ->
                resolveExact env
                  (mkWorld
                     (Json (data ++ [mkEntry canonical (Py.capitalize (Py.strip t))
                                             "countryCapital"]))
                     (Dict.set (countryCapital w) (Py.lower canonical)
                               (Py.capitalize (Py.strip t)))
                     (all_countries_cache w)
                     (http_log w ++ [App.name_url (Py.strip c)]))
                  q
                = Some (Py.capitalize (Py.strip t))).
  { intros q Hq. rewrite resolveExact_get. cbn [countryCapital].
    rewrite Hq. apply get_set_same. }
  split; [reflexivity|]. split; [reflexivity|].
  split; [apply Hq, lower_idem|]. split; [exact Hq|].
  split; [|reflexivity].
  intros Hstrip. apply Hq. unfold normalize. rewrite Hstrip. apply lower_idem.
Qed.

(** The scenario of the specification: "Deutschland" with capital "berlin",
    canonical name "Germany". *)
Lemma save_persists_canonical_witness :
  fst (App.save (directory_env "Germany") "Deutschland" "berlin" france_store)
  = Ok (App.success_html "Germany" "Berlin")
  /\ file (snd (App.save (directory_env "Germany") "Deutschland" "berlin"
                         france_store))
     = Json [france; mkEntry "Germany" "Berlin" "countryCapital"]
  /\ resolveExact (directory_env "Germany")
       (snd (App.save (directory_env "Germany") "Deutschland" "berlin"
                      france_store))
       "germany"
     = Some "Berlin"
  /\ resolveExact (directory_env "Germany")
       (snd (App.save (directory_env "Germany") "Deutschland" "berlin"
                      france_store))
       "GERMANY"
     = Some "Berlin"
  /\ resolveExact (directory_env "Germany")
       (snd (App.save (directory_env "Germany") "Deutschland" "berlin"
                      france_store))
       (normalize "Germany")
     = Some "Berlin".
Proof.
  destruct (save_persists_canonical (directory_env "Germany") france_store
              "Deutschland" "berlin" "Germany" [] [france]
              eq_refl eq_refl eq_refl)
    as (Hview & Hfile & Hlow & Hvar & Hnorm & _).
  split; [exact Hview|]. split; [exact Hfile|]. split; [exact Hlow|].
  split; [exact (Hvar "GERMANY" eq_refl)|exact (Hnorm eq_refl)].
Defined.

(** C7.  When the directory has named the country and the write of the
    extended file does not complete, [save] and [confirm_country] raise,
    the dictionary is the one from before, and every lookup answers as
    before: the entry that was not written is not advertised. *)
Theorem failed_write_keeps_mapping (env : Env) (w : World)
      (c t canonical : string) (rest : list CountryJson) (data : list Entry) :
  http_get env (List.length (http_log w)) (App.name_url (Py.strip c))
  = HttpResponse 200 (mkCountry canonical :: rest) ->
  file w = Json data ->
  disk_write env (data ++ [saved_entry canonical t]) <> Written ->
  fst (App.save env c t w) = Raise OSError
  /\ countryCapital (snd (App.save env c t w)) = countryCapital w
  /\ (forall q, resolveExact env (snd (App.save env c t w)) q
                = resolveExact env w q)
  /\ App.confirm_country env c t w = App.save env c t w.
Proof.
  intros Hv Hf Hw.
  destruct (save_validated env w c t canonical rest Hv) as [Hs Hc].
  rewrite Hc, Hs, append_and_index_run. cbn [sent file].
  rewrite Hf. cbn zeta. unfold saved_entry in Hw.
  destruct (disk_write env _); [contradiction| |];
    (split; [reflexivity|]; split; [reflexivity|];
     split; [intros q; now rewrite !resolveExact_get|reflexivity]).
Qed.

Lemma failed_write_keeps_mapping_witness :
  fst (App.save (full_disk_env "Germany") "Deutschland" "berlin" france_store)
  = Raise OSError
  /\ countryCapital (snd (App.save (full_disk_env "Germany") "Deutschland"
                                   "berlin" france_store))
     = countryCapital france_store
  /\ resolveExact (full_disk_env "Germany")
       (snd (App.save (full_disk_env "Germany") "Deutschland" "berlin"
                      france_store))
       "germany"
     = resolveExact (full_disk_env "Germany") france_store "germany".
Proof.
  destruct (failed_write_keeps_mapping (full_disk_env "Germany") france_store
              "Deutschland" "berlin" "Germany" [] [france] eq_refl eq_refl)
    as (Hraise & Hdict & Hlookup & _).
  - discriminate.
  - split; [exact Hraise|]. split; [exact Hdict|apply Hlookup].
Defined.

(* ================================================================== *)
(** ** The last record wins *)

(** Of two records whose countries are equal once trimmed and lower-cased,
    the later one does not win: the blank is part of its key, and the
    lookup of the country answers with the earlier capital. *)
Lemma lookup_last_normalized_misses :
  normalize (country lutetia_first) = normalize (country paris_blank)
  /\ reachable offline_env (startup [lutetia_first; paris_blank])
  /\ file (startup [lutetia_first; paris_blank]) = Json [lutetia_first; paris_blank]
  /\ capital paris_blank = "Paris"
  /\ resolveExact offline_env (startup [lutetia_first; paris_blank]) "France"
     = Some "Lutetia"
  /\ resolveExact offline_env (startup [lutetia_first; paris_blank])
       (normalize (country paris_blank))
     = Some "Lutetia".
Proof.
  split; [reflexivity|]. split; [apply reach_startup|]. repeat split.
Qed.

(** C10, amended.  In a reachable state the lookup answers with the capital
    of the last record of the file whose lower-cased country is the
    lower-cased query (no trimming takes part).  The index is built by
    assigning record after record, and an insert appends its record to the
    file and assigns once more, so that the capital just saved is the one
    every case variant of the country resolves to, whatever was stored
    before; an assignment to a key that is present overwrites it. *)
Theorem lookup_last_wins (env : Env) (w : World) (data : list Entry) :
  reachable env w -> file w = Json data ->
  (forall q, resolveExact env w q = last_capital data (Py.lower q))
  /\ (forall l1 e l2,
         data = (l1 ++ e :: l2)%list ->
         (forall e', In e' l2 ->
                     Py.lower (country e') <> Py.lower (country e)) ->
         forall q, Py.lower q = Py.lower (country e) ->
                   resolveExact env w q = Some (capital e))
  /\ (forall c t canonical rest,
         http_get env (List.length (http_log w)) (App.name_url (Py.strip c))
         = HttpResponse 200 (mkCountry canonical :: rest) ->
         disk_write env (data ++ [saved_entry canonical t]) = Written ->
         file (snd (App.save env c t w)) = Json (data ++ [saved_entry canonical t])
         /\ countryCapital (snd (App.save env c t w))
            = Dict.set (countryCapital w) (Py.lower canonical)
                       (Py.capitalize (Py.strip t))
         /\ (forall q, Py.lower q = Py.lower canonical ->
                       resolveExact env (snd (App.save env c t w)) q
                       = Some (Py.capitalize (Py.strip t)))
         /\ (forall q, resolveExact env (snd (App.save env c t w)) q
                       = last_capital (data ++ [saved_entry canonical t])
                                      (Py.lower q))
         /\ App.confirm_country env c t w = App.save env c t w)
  /\ (forall e,
         build_index (data ++ [e])
         = Dict.set (build_index data) (Py.lower (country e)) (capital e))
  /\ (forall k v, Dict.get (Dict.set (countryCapital w) k v) k = Some v).
Proof.
  intros Hr Hf.
  split; [intros q; now apply reachable_lookup|].
  split.
  { intros l1 e l2 -> Hlast q Hq.
    rewrite (reachable_lookup env w _ _ Hr Hf), Hq.
    now apply last_capital_last. }
  split.
  { intros c t canonical rest Hv Hw.
    destruct (save_validated env w c t canonical rest Hv) as [Hs Hc].
    assert (Hr' : reachable env (snd (App.save env c t w)))
      by apply (reach_handle env w (App.POST_save c t) Hr).
    rewrite Hc. revert Hr'.
    rewrite Hs, append_and_index_run. cbn [sent file].
    rewrite Hf. cbn zeta. unfold saved_entry in *. rewrite Hw.
    cbn [snd sent file countryCapital]. intros Hr'.
    split; [reflexivity|]. split; [reflexivity|]. split.
    - intros q Hq. rewrite resolveExact_get. cbn [countryCapital].
      rewrite Hq. apply get_set_same.
    - split; [|reflexivity].
      intros q. now apply (reachable_lookup env _ _ q Hr'). }
  split; [intros e; apply build_index_app|].
  intros k v. apply get_set_same.
Qed.

(** The later of two records for France wins at start-up, and a save of
    France with another capital wins over the record of the file. *)
Lemma lookup_last_wins_witness :
  resolveExact offline_env (startup [france; lutetia]) "france" = Some "Lutetia"
  /\ file (snd (App.save (directory_env "France") "france" "lutetia" france_store))
     = Json [france; mkEntry "France" "Lutetia" "countryCapital"]
  /\ resolveExact (directory_env "France")
       (snd (App.save (directory_env "France") "france" "lutetia" france_store))
       "FRANCE"
     = Some "Lutetia".
Proof.
  destruct (lookup_last_wins offline_env (startup [france; lutetia])
              [france; lutetia] (reach_startup offline_env _) eq_refl)
    as (_ & Hlast & _).
  destruct (lookup_last_wins (directory_env "France") france_store [france]
              (reach_startup _ _) eq_refl) as (_ & _ & Hsave & _).
  destruct (Hsave "france" "lutetia" "France" [] eq_refl eq_refl)
    as (Hfile & _ & Hnew & _).
  split.
  - apply (Hlast [france] lutetia []);
      [reflexivity|intros e' []|reflexivity].
  - split; [exact Hfile|]. apply Hnew. reflexivity.
Defined.

(* ================================================================== *)
(** ** The invariant of the store *)

(** Saving a country twice leaves two records for it, and saving with a
    blank capital leaves a record with an empty one. *)
Lemma reachable_breaks_entries_invariant :
  (reachable (directory_env "France") saved_twice
   /\ file saved_twice = Json [france; france]
   /\ ~ entries_unique_nonempty saved_twice)
  /\ (reachable (directory_env "France") saved_blank
      /\ file saved_blank = Json [mkEntry "France" "" "countryCapital"]
      /\ ~ entries_unique_nonempty saved_blank).
Proof.
  split; (split; [repeat apply reach_handle; apply reach_startup|]);
    (split; [reflexivity|]); intros H.
  - destruct (H [france; france] eq_refl) as [Hnd _].
    inversion Hnd as [|? ? Hnin _]. apply Hnin. now left.
  - destruct (H [mkEntry "France" "" "countryCapital"] eq_refl) as [_ Hne].
    apply (Hne (mkEntry "France" "" "countryCapital")); [now left|reflexivity].
Qed.

(** C3, amended.  The invariant that holds is one of the dictionary: its
    keys are pairwise distinct and lower-case, so no two of them are equal
    up to case, and while the file can be read the dictionary is the index
    of its records.  It holds at start-up, every request preserves it, and
    so it holds in every reachable state.  The file itself is append-only
    and may hold several records for a country and empty capitals. *)
Theorem store_invariant (env : Env) :
  (forall data, store_inv (startup data))
  /\ (forall w r, store_inv w -> store_inv (snd (App.handle env r w)))
  /\ (forall w, reachable env w -> store_inv w)
  /\ (forall w k1 k2,
         reachable env w ->
         In k1 (Dict.keys (countryCapital w)) ->
         In k2 (Dict.keys (countryCapital w)) ->
         Py.lower k1 = Py.lower k2 -> k1 = k2).
Proof.
  split; [apply store_inv_startup|].
  split; [intros w r; apply store_inv_handle|].
  split; [apply reachable_store_inv|].
  intros w k1 k2 Hr H1 H2 Hl.
  destruct (reachable_store_inv env w Hr) as (_ & Hlow & _).
  rewrite Forall_forall in Hlow.
  now rewrite <- (Hlow k1 H1), <- (Hlow k2 H2).
Qed.

Lemma store_invariant_witness :
  store_inv saved_twice
  /\ store_inv (snd (App.handle (directory_env "France") save_france france_store))
  /\ countryCapital saved_twice = [("france", "Paris")]
  /\ "france" = "france".
Proof.
  destruct (store_invariant (directory_env "France"))
    as (Hstart & Hstep & Hreach & Hkeys).
  assert (Hr : reachable (directory_env "France") saved_twice)
    by (unfold saved_twice; repeat apply reach_handle; apply reach_startup).
  split; [exact (Hreach saved_twice Hr)|].
  split; [exact (Hstep france_store save_france (Hstart [france]))|].
  split; [reflexivity|].
  apply (Hkeys saved_twice "france" "france" Hr);
    [now left|now left|reflexivity].
Defined.

(* ================================================================== *)
(** ** The routes, one request at a time *)

Lemma find_similar_countries_run (env : Env) (name : string) (t : Z) (w : World) :
  App.find_similar_countries env name t w
  = (Ok match all_names env w with
        | [] => []
        | _ => filter (fun m => t <=? snd m)
                      (Fuzzy.extract (matcher_ratio env) name (all_names env w) 5)
        end,
     snd (App.get_all_countries env w)).
Proof.
  unfold App.find_similar_countries, bind, all_names.
  destruct (get_all_countries_store env w) as [_ [l Hl]].
  destruct (App.get_all_countries env w) as [r w1]. cbn [fst snd] in *.
  subst r. now destruct l.
Qed.

(** What a request does to the world: nothing; or the name lookup is sent
    and then the handler raises on an empty answer, stops, goes on to the
    list of all countries, or appends a record. *)
Lemma handle_effect (env : Env) (r : App.Request) (w : World) :
  (snd (App.handle env r w) = w /\ exists v, fst (App.handle env r w) = Ok v)
  \/ exists c t,
      (r = App.POST_save c t \/ r = App.POST_confirm_country c t)
      /\ (App.handle env r w
          = (Raise IndexError, sent (App.name_url (Py.strip c)) w)
          \/ (r = App.POST_confirm_country c t
              /\ App.handle env r w
                 = (Ok (App.invalid_country_html (Py.capitalize (Py.strip c))),
                    sent (App.name_url (Py.strip c)) w))
          \/ (r = App.POST_save c t
              /\ snd (App.handle env r w)
                 = snd (App.get_all_countries env
                          (sent (App.name_url (Py.strip c)) w))
              /\ exists v, fst (App.handle env r w) = Ok v)
          \/ (exists name,
                 App.handle env r w
                 = App.append_and_index env name (Py.capitalize (Py.strip t))
                     (sent (App.name_url (Py.strip c)) w))).
Proof.
  destruct r as [|q|c t|c|c t|c t]; cbn [App.handle].
  - left. split; [reflexivity|eexists; reflexivity].
  - left. destruct (capital_run env q w) as [H1 H2]. now split.
  - left. split; [reflexivity|eexists; reflexivity].
  - left. unfold App.select_local, bind, get_countryCapital, ret.
    destruct (Dict.get (countryCapital w) (Py.lower c)) as [[|x y]|];
      (split; [reflexivity|eexists; reflexivity]).
  - right. exists c, t. split; [now left|].
    unfold App.save, bind. rewrite validate_country_run.
    destruct (http_get env (List.length (http_log w)) (App.name_url (Py.strip c)))
      as [|status data].
    + right. right. left. split; [reflexivity|].
      rewrite find_similar_countries_run.
      destruct (match all_names env _ with [] => _ | _ => _ end);
        (split; [reflexivity|eexists; reflexivity]).
    + destruct (status =? 200).
      * destruct data as [|x rest]; [now left|].
        right. right. right. now exists (name_common x).
      * right. right. left. split; [reflexivity|].
        rewrite find_similar_countries_run.
        destruct (match all_names env _ with [] => _ | _ => _ end);
          (split; [reflexivity|eexists; reflexivity]).
  - right. exists c, t. split; [now right|].
    unfold App.confirm_country, bind. rewrite validate_country_run.
    destruct (http_get env (List.length (http_log w)) (App.name_url (Py.strip c)))
      as [|status data].
    + right. left. now split.
    + destruct (status =? 200).
      * destruct data as [|x rest]; [now left|].
        right. right. right. now exists (name_common x).
      * right. left. now split.
Qed.

Lemma append_and_index_frame (env : Env) (name city : string) (w : World) :
  all_countries_cache (snd (App.append_and_index env name city w))
  = all_countries_cache w
  /\ http_log (snd (App.append_and_index env name city w)) = http_log w.
Proof.
  rewrite append_and_index_run.
  destruct (file w) as [data|]; [|now split].
  cbn zeta. now destruct (disk_write env _).
Qed.

Lemma get_all_countries_log (env : Env) (w : World) :
  (exists l, all_countries_cache w = Some l
             /\ snd (App.get_all_countries env w) = w)
  \/ (all_countries_cache w = None
      /\ http_log (snd (App.get_all_countries env w))
         = (http_log w ++ [App.all_url])%list).
Proof.
  rewrite get_all_countries_run.
  destruct (all_countries_cache w) as [l|]; [left; now exists l|].
  right. split; [reflexivity|].
  destruct (http_get env (List.length (http_log w)) App.all_url)
    as [|status data]; [reflexivity|].
  now destruct (status =? 200).
Qed.

Lemma in_keys_get (d : Dict.t) (k : string) :
  In k (Dict.keys d) -> exists v, Dict.get d k = Some v.
Proof.
  induction d as [|[k' v'] r IH]; simpl; [intros []|].
  intros [->|H].
  - rewrite String.eqb_refl. eauto.
  - destruct (String.eqb k' k); [eauto|now apply IH].
Qed.

(* ================================================================== *)
(** ** What no sequence of requests undoes *)

Lemma cache_step (env : Env) (r : App.Request) (w : World) (l : list string) :
  all_countries_cache w = Some l ->
  all_countries_cache (snd (App.handle env r w)) = Some l.
Proof.
  intros H.
  destruct (handle_effect env r w)
    as [[Hw _]|(c & t & _ & [E|[[_ E]|[(_ & E & _)|[name E]]]])].
  - now rewrite Hw.
  - now rewrite E.
  - now rewrite E.
  - rewrite E, get_all_countries_run. cbn [sent all_countries_cache].
    now rewrite H.
  - rewrite E. now rewrite (proj1 (append_and_index_frame env _ _ _)).
Qed.

(** X1.  The list of all countries, once cached, is never fetched again and
    never dropped: after any sequence of requests the cache holds the same
    list. *)
Theorem cache_is_permanent (env : Env) (rs : list App.Request) (w : World)
      (l : list string) :
  all_countries_cache w = Some l ->
  all_countries_cache (run env rs w) = Some l
  /\ App.get_all_countries env (run env rs w) = (Ok l, run env rs w).
Proof.
  revert w. induction rs as [|r rs IH]; intros w H; cbn [run].
  - split; [exact H|]. rewrite get_all_countries_run. now rewrite H.
  - apply IH. now apply cache_step.
Qed.

Lemma cache_is_permanent_witness :
  all_countries_cache
    (run (directory_env "Germany")
         [App.POST_save "Deutschland" "berlin"; App.POST_capital "germany"]
         (cached ["France"] france_store))
  = Some ["France"].
Proof.
  apply (proj1 (cache_is_permanent (directory_env "Germany")
                  [App.POST_save "Deutschland" "berlin"; App.POST_capital "germany"]
                  (cached ["France"] france_store) ["France"] eq_refl)).
Defined.

(** X2.  The outbound traffic of each route.  The four read-only routes send
    nothing; [confirm_country] sends the name lookup and nothing else;
    [save] sends the name lookup and, only when the lookup did not name a
    country and the cache is unset, the request for all countries. *)
Theorem requests_per_route (env : Env) (r : App.Request) (w : World) :
  match r with
  | App.POST_confirm_country c _ =>
      http_log (snd (App.handle env r w))
      = (http_log w ++ [App.name_url (Py.strip c)])%list
  | App.POST_save c _ =>
      http_log (snd (App.handle env r w))
      = (http_log w ++ [App.name_url (Py.strip c)])%list
      \/ (http_log (snd (App.handle env r w))
          = (http_log w ++ [App.name_url (Py.strip c); App.all_url])%list
          /\ all_countries_cache w = None
          /\ fst (App.validate_country env (Py.strip c) w) = Ok None)
  | _ => http_log (snd (App.handle env r w)) = http_log w
  end.
Proof.
  assert (Hrej : forall c,
    fst (App.validate_country env (Py.strip c) w) = Ok None ->
    http_log (snd (App.get_all_countries env (sent (App.name_url (Py.strip c)) w)))
    = (http_log w ++ [App.name_url (Py.strip c)])%list
    \/ (http_log (snd (App.get_all_countries env
                         (sent (App.name_url (Py.strip c)) w)))
        = (http_log w ++ [App.name_url (Py.strip c); App.all_url])%list
        /\ all_countries_cache w = None
        /\ fst (App.validate_country env (Py.strip c) w) = Ok None)).
  { intros c Hv.
    destruct (get_all_countries_log env (sent (App.name_url (Py.strip c)) w))
      as [(l & _ & E)|[Hc E]].
    - left. now rewrite E.
    - right. rewrite E. cbn [sent http_log]. rewrite <- app_assoc.
      now repeat split. }
  destruct r as [|q|c t|c|c t|c t]; cbn [App.handle].
  - reflexivity.
  - now rewrite (proj1 (capital_run env q w)).
  - reflexivity.
  - unfold App.select_local, bind, get_countryCapital, ret.
    now destruct (Dict.get (countryCapital w) (Py.lower c)) as [[|x y]|].
  - specialize (Hrej c). revert Hrej.
    unfold App.save, bind. rewrite validate_country_run.
    destruct (http_get env (List.length (http_log w)) (App.name_url (Py.strip c)))
      as [|status data]; cbn [fst].
    + intros Hrej. rewrite find_similar_countries_run.
      destruct (match all_names env _ with [] => _ | _ => _ end);
        cbn [snd]; now apply Hrej.
    + destruct (status =? 200); cbn [fst].
      * intros _. destruct data as [|x rest]; [now left|]. left.
        now rewrite (proj2 (append_and_index_frame env _ _ _)).
      * intros Hrej. rewrite find_similar_countries_run.
        destruct (match all_names env _ with [] => _ | _ => _ end);
          cbn [snd]; now apply Hrej.
  - unfold App.confirm_country, bind. rewrite validate_country_run.
    destruct (http_get env (List.length (http_log w)) (App.name_url (Py.strip c)))
      as [|status data]; [reflexivity|].
    destruct (status =? 200); [|reflexivity].
    destruct data as [|x rest]; [reflexivity|].
    now rewrite (proj2 (append_and_index_frame env _ _ _)).
Qed.

Lemma file_step (env : Env) (r : App.Request) (w : World) :
  file (snd (App.handle env r w)) = file w
  \/ file (snd (App.handle env r w)) = Unreadable
  \/ exists data e,
      file w = Json data
      /\ file (snd (App.handle env r w)) = Json (data ++ [e])
      /\ type_ e = "countryCapital".
Proof.
  destruct (handle_effect env r w)
    as [[Hw _]|(c & t & _ & [E|[[_ E]|[(_ & E & _)|[name E]]]])].
  - left. now rewrite Hw.
  - left. now rewrite E.
  - left. now rewrite E.
  - left. rewrite E.
    now rewrite (proj1 (proj1 (get_all_countries_store env _))).
  - rewrite E, append_and_index_run. cbn [sent file].
    destruct (file w) as [data|] eqn:Ef; [|left; exact Ef].
    cbn zeta. destruct (disk_write env _); cbn [snd sent file].
    + right. right. eexists data, _. repeat split.
    + now left.
    + right. now left.
Qed.

(** X3.  The file is append-only.  If it can be read after a sequence of
    requests, it could be read before, and it now holds the records it held
    then, in the same order, followed by at most one new record per
    request, each tagged [countryCapital]. *)
Theorem file_append_only (env : Env) (rs : list App.Request) (w : World)
      (data' : list Entry) :
  file (run env rs w) = Json data' ->
  exists data added,
    file w = Json data
    /\ data' = (data ++ added)%list
    /\ (List.length added <= List.length rs)%nat
    /\ Forall (fun e => type_ e = "countryCapital") added.
Proof.
  revert w. induction rs as [|r rs IH]; intros w H; cbn [run] in H.
  - exists data', []. rewrite app_nil_r. repeat split; auto.
  - destruct (IH _ H) as (data1 & added1 & Hf1 & -> & Hlen & Htag).
    destruct (file_step env r w) as [E|[E|(data & e & Hf & E & He)]].
    + exists data1, added1. rewrite <- E. repeat split; auto. cbn. lia.
    + rewrite E in Hf1. discriminate.
    + rewrite E in Hf1. injection Hf1 as <-.
      exists data, (e :: added1). rewrite <- app_assoc.
      repeat split; auto. cbn. lia.
Qed.

Lemma file_append_only_witness :
  exists data added,
    file france_store = Json data
    /\ [france; mkEntry "Germany" "Berlin" "countryCapital"] = (data ++ added)%list
    /\ (List.length added <= 2)%nat
    /\ Forall (fun e => type_ e = "countryCapital") added.
Proof.
  apply (file_append_only (directory_env "Germany")
           [App.POST_save "Deutschland" "berlin"; App.POST_capital "germany"]
           france_store).
  reflexivity.
Defined.

Lemma keys_step (env : Env) (r : App.Request) (w : World) (k : string) :
  In k (Dict.keys (countryCapital w)) ->
  In k (Dict.keys (countryCapital (snd (App.handle env r w)))).
Proof.
  intros H.
  destruct (handle_effect env r w)
    as [[Hw _]|(c & t & _ & [E|[[_ E]|[(_ & E & _)|[name E]]]])].
  - now rewrite Hw.
  - now rewrite E.
  - now rewrite E.
  - rewrite E. now rewrite (proj2 (proj1 (get_all_countries_store env _))).
  - rewrite E, append_and_index_run. cbn [sent file].
    destruct (file w) as [data|]; [|exact H].
    cbn zeta. destruct (disk_write env _); cbn [snd countryCapital]; auto.
    apply in_keys_set. now right.
Qed.

(** X4.  Nothing is ever forgotten.  A country the exact lookup resolves is
    still resolved after any sequence of requests (to its capital, or to a
    capital saved later). *)
Theorem found_stays_found (env : Env) (rs : list App.Request) (w : World)
      (q c : string) :
  resolveExact env w q = Some c ->
  exists c', resolveExact env (run env rs w) q = Some c'.
Proof.
  intros H. rewrite resolveExact_get in H. apply get_some_in_keys in H.
  assert (Hk : In (Py.lower q) (Dict.keys (countryCapital (run env rs w)))).
  { revert w H. induction rs as [|r rs IH]; intros w H; cbn [run]; [exact H|].
    apply IH. now apply keys_step. }
  destruct (in_keys_get _ _ Hk) as [c' Hc']. exists c'.
  now rewrite resolveExact_get.
Qed.

Lemma found_stays_found_witness :
  exists c',
    resolveExact (directory_env "France")
      (run (directory_env "France")
           [App.POST_save "france" "lutetia"; App.POST_confirm_country "x" "y"]
           france_store)
      "FRANCE"
    = Some c'.
Proof.
  apply (found_stays_found (directory_env "France")
           [App.POST_save "france" "lutetia"; App.POST_confirm_country "x" "y"]
           france_store "FRANCE" "Paris").
  reflexivity.
Defined.



(* ================================================================== *)
(** ** A name the directory does not confirm *)

(** X6.  When the name lookup fails or answers with a status other than 200,
    [save] writes nothing and changes no entry of the dictionary; it shows
    the remote suggestions when there are some, with the capital as typed
    (trimmed), and the page for an invalid country otherwise.
    [confirm_country] shows that page at once, with no second request. *)
Theorem rejected_save_keeps_store (env : Env) (c t : string) (w : World) :
  http_get env (List.length (http_log w)) (App.name_url (Py.strip c))
  = RequestException
  \/ (exists status data,
         http_get env (List.length (http_log w)) (App.name_url (Py.strip c))
         = HttpResponse status data /\ status <> 200) ->
  same_store w (snd (App.save env c t w))
  /\ (exists l,
         fst (App.find_similar_countries env (Py.strip c) 50
                (sent (App.name_url (Py.strip c)) w)) = Ok l
         /\ fst (App.save env c t w)
            = Ok match l with
                 | [] => App.invalid_country_html (Py.capitalize (Py.strip c))
                 | _ => App.suggestions_html (Py.capitalize (Py.strip c)) l
                                              (Py.strip t)
                 end)
  /\ App.confirm_country env c t w
     = (Ok (App.invalid_country_html (Py.capitalize (Py.strip c))),
        sent (App.name_url (Py.strip c)) w).
Proof.
  intros H.
  assert (Hv : App.validate_country env (Py.strip c) w
               = (Ok None, sent (App.name_url (Py.strip c)) w)).
  { rewrite validate_country_run.
    destruct H as [->|(status & data & -> & Hs)]; [reflexivity|].
    apply Z.eqb_neq in Hs. now rewrite Hs. }
  unfold App.save, App.confirm_country, bind. rewrite Hv.
  pose proof (find_similar_countries_store env (Py.strip c) 50
                (sent (App.name_url (Py.strip c)) w)) as Hs.
  rewrite find_similar_countries_run in *. cbn [fst snd] in *.
  split; [|split; [|reflexivity]].
  - destruct (match all_names env _ with [] => _ | _ => _ end);
      cbn [snd]; exact Hs.
  - eexists. split; [reflexivity|].
    now destruct (match all_names env _ with [] => _ | _ => _ end).
Qed.

Lemma rejected_save_keeps_store_witness :
  same_store france_store
    (snd (App.save (suggesting_env ["Germany"; "France"]) "Germny" " berlin "
                   france_store))
  /\ fst (App.save (suggesting_env ["Germany"; "France"]) "Germny" " berlin "
                   france_store)
     = Ok (App.suggestions_html "Germny" [("Germany", 92)] "berlin")
  /\ fst (App.save offline_env "Atlantis" "x" france_store)
     = Ok (App.invalid_country_html "Atlantis").
Proof.
  destruct (rejected_save_keeps_store (suggesting_env ["Germany"; "France"])
              "Germny" " berlin " france_store) as (Hs & (l & Hl & Hv) & _).
  { right. exists 404, []. split; [reflexivity|discriminate]. }
  destruct (rejected_save_keeps_store offline_env "Atlantis" "x" france_store)
    as (_ & (l' & Hl' & Hv') & _).
  { left. reflexivity. }
  split; [exact Hs|]. split.
  - rewrite Hv. vm_compute in Hl. injection Hl as <-. reflexivity.
  - rewrite Hv'. vm_compute in Hl'. injection Hl' as <-. reflexivity.
Defined.

(** X7.  A 200 answer that lists no country makes [validate_country] raise
    [IndexError] on [data[0]]; [save] and [confirm_country] pass the
    exception on after the one request, with nothing written. *)
Theorem empty_answer_raises (env : Env) (c t : string) (w : World) :
  http_get env (List.length (http_log w)) (App.name_url (Py.strip c))
  = HttpResponse 200 [] ->
  App.validate_country env (Py.strip c) w
  = (Raise IndexError, sent (App.name_url (Py.strip c)) w)
  /\ App.save env c t w = (Raise IndexError, sent (App.name_url (Py.strip c)) w)
  /\ App.confirm_country env c t w
     = (Raise IndexError, sent (App.name_url (Py.strip c)) w).
Proof.
  intros H.
  assert (Hv : App.validate_country env (Py.strip c) w
               = (Raise IndexError, sent (App.name_url (Py.strip c)) w))
    by (rewrite validate_country_run; now rewrite H).
  unfold App.save, App.confirm_country, bind. now rewrite Hv.
Qed.

Lemma empty_answer_raises_witness :
  App.save empty_list_env "Atlantis" "x" france_store
  = (Raise IndexError, sent (App.name_url "Atlantis") france_store).
Proof.
  apply (proj1 (proj2 (empty_answer_raises empty_list_env "Atlantis" "x"
                         france_store eq_refl))).
Defined.

(* ================================================================== *)
(** ** Remote suggestions *)

(** X8.  [find_similar_countries] leaves the file and the dictionary alone;
    what it does to the world is what [get_all_countries] does.  When it
    returns, it returns at most five pairs; each is a name of the list of
    all countries, as the list spells it, with its score against the query,
    which is at least the threshold; and it returns nothing when the list
    is empty.  It does return when the cache is set, when the request
    raises, and when the response carries a status and the list of country
    objects [response.json()] gives; with the cache unset and the request
    failed or answered with another status than 200 it returns nothing. *)
Theorem find_similar_countries_sound (env : Env) (name : string) (t : Z) (w : World) :
  same_store w (snd (App.find_similar_countries env name t w))
  /\ snd (App.find_similar_countries env name t w)
     = snd (App.get_all_countries env w)
  /\ (forall l,
         fst (App.find_similar_countries env name t w) = Ok l ->
         (List.length l <= 5)%nat
         /\ (forall x s, In (x, s) l ->
                         t <= s
                         /\ s = Fuzzy.score (matcher_ratio env) name x
                         /\ In x (all_names env w))
         /\ (all_names env w = [] -> l = []))
  /\ ((exists names, all_countries_cache w = Some names)
      \/ http_get env (List.length (http_log w)) App.all_url = RequestException
      \/ (exists status data,
             http_get env (List.length (http_log w)) App.all_url
             = HttpResponse status data) ->
      exists l, fst (App.find_similar_countries env name t w) = Ok l)
  /\ (all_countries_cache w = None ->
      http_get env (List.length (http_log w)) App.all_url = RequestException
      \/ (exists status data,
             http_get env (List.length (http_log w)) App.all_url
             = HttpResponse status data /\ status <> 200) ->
      App.find_similar_countries env name t w = (Ok [], sent App.all_url w)).
Proof.
  pose proof (find_similar_countries_store env name t w) as Hs.
  rewrite find_similar_countries_run in *. cbn [fst snd] in *.
  split; [exact Hs|]. split; [reflexivity|].
  destruct (extract_sound (matcher_ratio env) name (all_names env w) 5)
    as [Hlen Hin].
  split; [|split].
  - intros l [= <-].
    destruct (all_names env w) as [|n0 ns] eqn:En.
    + split; [cbn; lia|]. split; [intros ? ? []|reflexivity].
    + split.
      { eapply Nat.le_trans; [apply filter_length_le|exact Hlen]. }
      split; [|discriminate].
      intros x s H. apply (proj1 (filter_In _ _ _)) in H.
      destruct H as [H Ht]. cbn [snd] in Ht. apply Z.leb_le in Ht.
      destruct (Hin x s H) as [Hx Hscore]. auto.
  - intros _. eexists. reflexivity.
  - intros Hc H.
    assert (E : App.get_all_countries env w = (Ok [], sent App.all_url w)).
    { rewrite get_all_countries_run, Hc.
      destruct H as [->|(status & data & -> & Hne)]; [reflexivity|].
      apply Z.eqb_neq in Hne. now rewrite Hne. }
    unfold all_names. rewrite E. reflexivity.
Qed.

Lemma find_similar_countries_sound_witness :
  92 = Fuzzy.score Difflib.matcher_ratio "Germny" "Germany"
  /\ (exists l,
         fst (App.find_similar_countries (suggesting_env ["Germany"; "France"])
                "Germny" 50 (sent "x" france_store)) = Ok l)
  /\ App.find_similar_countries offline_env "Atlantis" 50 france_store
     = (Ok [], sent App.all_url france_store).
Proof.
  destruct (find_similar_countries_sound (suggesting_env ["Germany"; "France"])
              "Germny" 50 (sent "x" france_store))
    as (_ & _ & Hret & Hok & _).
  destruct (find_similar_countries_sound offline_env "Atlantis" 50 france_store)
    as (_ & _ & _ & _ & Hdown).
  split; [|split].
  - destruct (Hret [("Germany", 92)]) as (_ & Hin & _);
      [vm_compute; reflexivity|].
    apply (Hin "Germany" 92). now left.
  - apply Hok. right. right.
    exists 200, [mkCountry "Germany"; mkCountry "France"]. reflexivity.
  - apply Hdown; [reflexivity|left; reflexivity].
Defined.

(** X9.  A 200 answer with an empty list of countries is cached like any
    other: from then on, whatever requests come in between,
    [find_similar_countries] returns nothing and sends nothing. *)
Theorem empty_list_cached_for_good (env : Env) (w : World)
      (rs : list App.Request) (name : string) (t : Z) :
  all_countries_cache w = None ->
  http_get env (List.length (http_log w)) App.all_url = HttpResponse 200 [] ->
  App.find_similar_countries env name t
    (run env rs (snd (App.get_all_countries env w)))
  = (Ok [], run env rs (snd (App.get_all_countries env w))).
Proof.
  intros Hc Hr.
  assert (H0 : all_countries_cache (snd (App.get_all_countries env w)) = Some []).
  { rewrite get_all_countries_run, Hc, Hr. reflexivity. }
  assert (H1 : all_countries_cache
                 (run env rs (snd (App.get_all_countries env w))) = Some []).
  { generalize dependent (snd (App.get_all_countries env w)).
    induction rs as [|r rs IH]; intros w0 H0; cbn [run]; [exact H0|].
    apply IH. now apply cache_step. }
  rewrite find_similar_countries_run. unfold all_names.
  rewrite get_all_countries_run, H1. reflexivity.
Qed.

Lemma empty_list_cached_for_good_witness :
  App.find_similar_countries empty_list_env "Atlantis" 50
    (run empty_list_env [App.POST_capital "x"]
         (snd (App.get_all_countries empty_list_env france_store)))
  = (Ok [],
     run empty_list_env [App.POST_capital "x"]
         (snd (App.get_all_countries empty_list_env france_store))).
Proof.
  apply (empty_list_cached_for_good empty_list_env france_store
           [App.POST_capital "x"] "Atlantis" 50); reflexivity.
Defined.

(* ================================================================== *)
(** ** The order and the cut of the suggestions *)

Lemma in_insert_desc_iff (x y : string * Z) (l : list (string * Z)) :
  In x (Fuzzy.insert_desc y l) <-> x = y \/ In x l.
Proof.
  induction l as [|z r IH]; cbn [Fuzzy.insert_desc In].
  - split; [intros [H|[]]|intros [H|[]]]; auto.
  - destruct (snd y <? snd z); cbn [In]; [rewrite IH|];
      intuition congruence.
Qed.

Lemma desc_sorted_insert (x : string * Z) (l : list (string * Z)) :
  desc_sorted l -> desc_sorted (Fuzzy.insert_desc x l).
Proof.
  induction l as [|y r IH]; cbn [Fuzzy.insert_desc desc_sorted].
  - intros _. split; [constructor|exact I].
  - intros [Hy Hr]. destruct (Z.ltb_spec (snd x) (snd y)) as [Hlt|Hge].
    + cbn [desc_sorted]. split; [|now apply IH].
      apply Forall_forall. intros z Hz.
      apply (proj1 (in_insert_desc_iff _ _ _)) in Hz.
      destruct Hz as [->|Hz]; [lia|].
      rewrite Forall_forall in Hy. now apply Hy.
    + cbn [desc_sorted]. split; [|now split].
      constructor; [exact Hge|].
      rewrite Forall_forall in *. intros z Hz. specialize (Hy z Hz). lia.
Qed.

Lemma desc_sorted_sorted_desc (l : list (string * Z)) :
  desc_sorted (Fuzzy.sorted_desc l).
Proof.
  induction l as [|x r IH]; [exact I|].
  cbn [Fuzzy.sorted_desc fold_right]. now apply desc_sorted_insert.
Qed.

Lemma desc_sorted_firstn (n : nat) (l : list (string * Z)) :
  desc_sorted l -> desc_sorted (firstn n l).
Proof.
  revert l. induction n as [|n IH]; intros [|x r]; cbn; auto.
  intros [Hx Hr]. split; [|now apply IH].
  rewrite Forall_forall in *. intros z Hz. apply Hx.
  now apply in_firstn in Hz.
Qed.

Lemma desc_sorted_filter (p : string * Z -> bool) (l : list (string * Z)) :
  desc_sorted l -> desc_sorted (filter p l).
Proof.
  induction l as [|x r IH]; cbn [filter desc_sorted]; [auto|].
  intros [Hx Hr]. destruct (p x); [|now apply IH].
  cbn [desc_sorted]. split; [|now apply IH].
  rewrite Forall_forall in *. intros z Hz.
  apply (proj1 (filter_In _ _ _)) in Hz. now apply Hx.
Qed.

Lemma desc_sorted_display (l : list (string * Z)) :
  desc_sorted l -> desc_sorted (map display l).
Proof.
  induction l as [|x r IH]; cbn [map desc_sorted]; [auto|].
  intros [Hx Hr]. split; [|now apply IH].
  rewrite Forall_forall in *. intros z Hz.
  apply (proj1 (in_map_iff _ _ _)) in Hz. destruct Hz as (y & <- & Hy).
  cbn [display snd]. now apply Hx.
Qed.

Lemma desc_sorted_extract (m : string -> string -> Z) (q : string)
      (choices : list string) (n : nat) :
  desc_sorted (Fuzzy.extract m q choices n).
Proof.
  unfold Fuzzy.extract, Fuzzy.nlargest.
  apply desc_sorted_firstn, desc_sorted_sorted_desc.
Qed.

(** X10.  Suggestions come best first: the lists [find_similar_local_countries]
    and [find_similar_countries] return are in descending order of score,
    whatever the threshold. *)
Theorem suggestions_best_first (env : Env) (q : string) (t : Z) (w : World) :
  (forall l, fst (App.find_similar_local_countries env q t w) = Ok l ->
             desc_sorted l)
  /\ (forall l, fst (App.find_similar_countries env q t w) = Ok l ->
                desc_sorted l)
  /\ desc_sorted (suggestLocal env w q).
Proof.
  assert (Hlocal : forall t', 
    desc_sorted
      match Dict.keys (countryCapital w) with
      | [] => []
      | _ => map (fun m => (Py.capitalize (fst m), snd m))
                 (filter (fun m => t' <=? snd m)
                         (Fuzzy.extract (matcher_ratio env) q
                                        (Dict.keys (countryCapital w)) 5))
      end).
  { intros t'. destruct (Dict.keys (countryCapital w)) eqn:E; [exact I|].
    rewrite <- E. apply (desc_sorted_display _).
    apply desc_sorted_filter, desc_sorted_extract. }
  split; [|split].
  - intros l. rewrite find_similar_local_run. cbn [fst].
    intros [= <-]. apply Hlocal.
  - intros l. rewrite find_similar_countries_run. cbn [fst].
    intros [= <-]. destruct (all_names env w) eqn:E; [exact I|].
    rewrite <- E. apply desc_sorted_filter, desc_sorted_extract.
  - rewrite suggestLocal_eq. apply Hlocal.
Qed.

Lemma suggestions_best_first_witness :
  desc_sorted [("Germany", 92); ("Germania", 71)].
Proof.
  apply (proj1 (proj2 (suggestions_best_first
                         (suggesting_env ["Germania"; "France"; "Germany"])
                         "Germny" 50 (sent "x" france_store)))).
  vm_compute. reflexivity.
Defined.

Lemma filter_insert_desc (t : Z) (x : string * Z) (l : list (string * Z)) :
  desc_sorted l ->
  filter (above t) (Fuzzy.insert_desc x l)
  = if above t x then Fuzzy.insert_desc x (filter (above t) l) else filter (above t) l.
Proof.
  induction l as [|y r IH]; intros Hs.
  - cbn. now destruct (above t x).
  - destruct Hs as [Hy Hr]. cbn [Fuzzy.insert_desc].
    destruct (Z.ltb_spec (snd x) (snd y)) as [Hlt|Hge].
    + cbn [filter]. rewrite (IH Hr).
      destruct (above t x) eqn:Ex.
      * assert (Ey : above t y = true).
        { unfold above in *. apply Z.leb_le in Ex. apply Z.leb_le. lia. }
        rewrite Ey. cbn [Fuzzy.insert_desc].
        destruct (Z.ltb_spec (snd x) (snd y)); [reflexivity|lia].
      * reflexivity.
    + cbn [filter]. destruct (above t x) eqn:Ex; [|reflexivity].
      destruct (above t y) eqn:Ey.
      * cbn [Fuzzy.insert_desc].
        destruct (Z.ltb_spec (snd x) (snd y)); [lia|reflexivity].
      * destruct (filter (above t) r) as [|z r'] eqn:Er; [reflexivity|].
        cbn [Fuzzy.insert_desc].
        assert (Hz : In z (filter (above t) r)) by (rewrite Er; now left).
        apply (proj1 (filter_In _ _ _)) in Hz. destruct Hz as [Hz _].
        rewrite Forall_forall in Hy. specialize (Hy z Hz).
        destruct (Z.ltb_spec (snd x) (snd z)); [lia|reflexivity].
Qed.

Lemma filter_sorted_desc (t : Z) (l : list (string * Z)) :
  filter (above t) (Fuzzy.sorted_desc l) = Fuzzy.sorted_desc (filter (above t) l).
Proof.
  induction l as [|x r IH]; [reflexivity|].
  cbn [Fuzzy.sorted_desc fold_right filter].
  rewrite filter_insert_desc by apply desc_sorted_sorted_desc.
  fold (Fuzzy.sorted_desc r). rewrite IH.
  now destruct (above t x).
Qed.

Lemma filter_firstn_sorted (t : Z) (n : nat) (l : list (string * Z)) :
  desc_sorted l ->
  filter (above t) (firstn n l) = firstn n (filter (above t) l).
Proof.
  revert n. induction l as [|x r IH]; intros n Hs.
  - now destruct n.
  - destruct Hs as [Hx Hr]. destruct n as [|n]; [now destruct (filter _ _)|].
    cbn [firstn filter]. destruct (above t x) eqn:Ex.
    + cbn [firstn]. now rewrite IH.
    + assert (Hnone : forall l', (forall z, In z l' -> In z r) ->
                                 filter (above t) l' = []).
      { induction l' as [|z l' IHl]; intros Hin; [reflexivity|].
        cbn [filter]. rewrite Forall_forall in Hx.
        assert (Hz : snd z <= snd x) by (apply Hx, Hin; now left).
        assert (Ez : above t z = false).
        { unfold above in *. apply Z.leb_gt in Ex. apply Z.leb_gt. lia. }
        rewrite Ez. apply IHl. intros z' Hz'. apply Hin. now right. }
      rewrite (Hnone r) by auto.
      rewrite (Hnone (firstn n r)); [now destruct n|].
      intros z Hz. now apply in_firstn in Hz.
Qed.

(** Cutting to the [n] best and then dropping what is under the threshold
    gives the [n] best of what is not under the threshold. *)
Lemma extract_then_threshold (t : Z) (m : string -> string -> Z) (q : string)
      (choices : list string) (n : nat) :
  0 <= t ->
  filter (above t) (Fuzzy.extract m q choices n)
  = firstn n (Fuzzy.sorted_desc (filter (above t) (scored m q choices))).
Proof.
  intros Ht. unfold Fuzzy.extract, Fuzzy.nlargest, Fuzzy.extractWithoutOrder.
  fold (scored m q choices).
  rewrite filter_firstn_sorted by apply desc_sorted_sorted_desc.
  rewrite filter_sorted_desc. f_equal. f_equal.
  induction (scored m q choices) as [|x r IH]; [reflexivity|].
  cbn [filter]. destruct (Z.leb_spec 0 (snd x)) as [H0|H0].
  - cbn [filter]. now rewrite IH.
  - assert (Ex : above t x = false) by (unfold above; apply Z.leb_gt; lia).
    now rewrite Ex, IH.
Qed.

Lemma local_suggestions_best (env : Env) (q : string) (t : Z) (w : World) :
  0 <= t ->
  App.find_similar_local_countries env q t w
  = (Ok (map display
             (firstn 5 (Fuzzy.sorted_desc
                          (filter (above t)
                                  (scored (matcher_ratio env) q
                                          (Dict.keys (countryCapital w))))))),
     w).
Proof.
  intros Ht. rewrite find_similar_local_run.
  destruct (Dict.keys (countryCapital w)) as [|k ks] eqn:E; [reflexivity|].
  rewrite <- E.
  change (fun m : string * Z => (Py.capitalize (fst m), snd m)) with display.
  change (fun m : string * Z => t <=? snd m) with (above t).
  now rewrite (extract_then_threshold t) by assumption.
Qed.

Lemma in_sorted_desc_iff (x : string * Z) (l : list (string * Z)) :
  In x (Fuzzy.sorted_desc l) <-> In x l.
Proof.
  induction l as [|y r IH]; [reflexivity|].
  cbn [Fuzzy.sorted_desc fold_right In].
  rewrite in_insert_desc_iff. fold (Fuzzy.sorted_desc r). rewrite IH.
  intuition congruence.
Qed.

Lemma length_insert_desc (x : string * Z) (l : list (string * Z)) :
  List.length (Fuzzy.insert_desc x l) = S (List.length l).
Proof.
  induction l as [|y r IH]; [reflexivity|].
  cbn [Fuzzy.insert_desc]. destruct (snd x <? snd y); cbn [List.length]; auto.
Qed.

Lemma length_sorted_desc (l : list (string * Z)) :
  List.length (Fuzzy.sorted_desc l) = List.length l.
Proof.
  induction l as [|x r IH]; [reflexivity|].
  cbn [Fuzzy.sorted_desc fold_right]. rewrite length_insert_desc.
  fold (Fuzzy.sorted_desc r). now rewrite IH.
Qed.

(** X11.  Thresholding after the cut to five loses nothing.  For a threshold
    that is not negative, both suggestion functions return the five best,
    in the stable descending order, of all the candidates whose score
    reaches the threshold; so when at most five candidates reach it, every
    one of them is suggested. *)
Theorem suggestions_are_the_best (env : Env) (q : string) (t : Z) (w : World) :
  0 <= t ->
  fst (App.find_similar_local_countries env q t w)
  = Ok (map display
            (firstn 5 (Fuzzy.sorted_desc
                         (filter (above t)
                                 (scored (matcher_ratio env) q
                                         (Dict.keys (countryCapital w)))))))
  /\ fst (App.find_similar_countries env q t w)
     = Ok (firstn 5 (Fuzzy.sorted_desc
                       (filter (above t)
                               (scored (matcher_ratio env) q (all_names env w)))))
  /\ ((List.length (filter (above t)
                           (scored (matcher_ratio env) q
                                   (Dict.keys (countryCapital w)))) <= 5)%nat ->
      forall k, In k (Dict.keys (countryCapital w)) ->
                t <= Fuzzy.score (matcher_ratio env) q k ->
                exists l,
                  fst (App.find_similar_local_countries env q t w) = Ok l
                  /\ In (Py.capitalize k, Fuzzy.score (matcher_ratio env) q k) l).
Proof.
  intros Ht. rewrite (local_suggestions_best env q t w Ht). cbn [fst].
  split; [reflexivity|]. split.
  - rewrite find_similar_countries_run. cbn [fst].
    destruct (all_names env w) as [|n ns] eqn:E; [reflexivity|].
    rewrite <- E.
    change (fun m : string * Z => t <=? snd m) with (above t).
    now rewrite (extract_then_threshold t) by assumption.
  - intros Hlen k Hk Hs. eexists. split; [reflexivity|].
    rewrite firstn_all2 by (now rewrite length_sorted_desc).
    apply in_map_iff. exists (k, Fuzzy.score (matcher_ratio env) q k).
    split; [reflexivity|].
    apply in_sorted_desc_iff. apply filter_In. split.
    + unfold scored. apply in_map_iff. now exists k.
    + unfold above. cbn [snd]. now apply Z.leb_le.
Qed.

Lemma suggestions_are_the_best_witness :
  fst (App.find_similar_local_countries offline_env "franse" 60 france_store)
  = Ok [("France", 83)]
  /\ exists l,
      fst (App.find_similar_local_countries offline_env "franse" 60 france_store)
      = Ok l
      /\ In (Py.capitalize "france",
             Fuzzy.score (matcher_ratio offline_env) "franse" "france") l.
Proof.
  destruct (suggestions_are_the_best offline_env "franse" 60 france_store)
    as (Hl & _ & Hall); [discriminate|].
  split.
  - rewrite Hl. vm_compute. reflexivity.
  - apply Hall.
    + vm_compute. lia.
    + now left.
    + vm_compute. discriminate.
Defined.

Lemma ratio_empty_query (m : string -> string -> Z) (s : string) :
  s <> "" -> Fuzzy.ratio m "" s = 0.
Proof.
  intros H. unfold Fuzzy.ratio. destruct s as [|c r]; [contradiction|].
  reflexivity.
Qed.

Lemma blank_query_scores (m : string -> string -> Z) (q : string)
      (ks : list string) :
  Fuzzy.full_process q = "" ->
  (forall k, In k ks -> Fuzzy.full_process k <> "") ->
  filter (above 60) (scored m q ks) = [].
Proof.
  intros Hq. induction ks as [|k ks IH]; intros Hks; [reflexivity|].
  unfold scored. cbn [map filter].
  assert (E : above 60 (k, Fuzzy.score m q k) = false).
  { unfold above, Fuzzy.score. cbn [snd]. rewrite Hq.
    rewrite ratio_empty_query by (apply Hks; now left). reflexivity. }
  rewrite E. apply IH. intros k' Hk'. apply Hks. now right.
Qed.

(** X12.  A query with no letter, digit or underscore in it is reduced to the
    empty string by the matcher's processor; it scores 0 against every key
    that is not reduced to the empty string too, so it gets no local
    suggestion, and [/capital] answers it with the page for an unknown
    country unless it is itself a key. *)
Theorem blank_query_gets_no_suggestion (env : Env) (q : string) (w : World) :
  Fuzzy.full_process q = "" ->
  (forall k, In k (Dict.keys (countryCapital w)) -> Fuzzy.full_process k <> "") ->
  suggestLocal env w q = []
  /\ (resolveExact env w q = None ->
      Fuzzy.full_process (Py.lower q) = "" ->
      fst (App.capital env q w)
      = Ok (App.unknown_html (Py.capitalize (Py.lower q)) "")).
Proof.
  intros Hq Hkeys.
  assert (Hnone : forall q', Fuzzy.full_process q' = "" ->
            fst (App.find_similar_local_countries env q' 60 w) = Ok []).
  { intros q' Hq'. rewrite (local_suggestions_best env q' 60 w) by lia.
    cbn [fst].
    rewrite (blank_query_scores (matcher_ratio env) q' _ Hq' Hkeys).
    reflexivity. }
  split.
  - unfold suggestLocal. now rewrite Hnone.
  - intros Hmiss Hlow. rewrite resolveExact_get in Hmiss.
    unfold App.capital, bind, get_countryCapital. rewrite Hmiss.
    specialize (Hnone (Py.lower q) Hlow).
    destruct (App.find_similar_local_countries env (Py.lower q) 60 w)
      as [r w']. cbn [fst] in Hnone. subst r. reflexivity.
Qed.

Lemma blank_query_gets_no_suggestion_witness :
  suggestLocal offline_env france_store "?!" = []
  /\ fst (App.capital offline_env "?!" france_store)
     = Ok (App.unknown_html "?!" "").
Proof.
  destruct (blank_query_gets_no_suggestion offline_env "?!" france_store)
    as [Hs Hc].
  - reflexivity.
  - intros k [<-|[]]. discriminate.
  - split; [exact Hs|]. apply Hc; reflexivity.
Defined.

(** X13.  Every local suggestion leads to a hit, on a store of ASCII
    names.  In a reachable state whose keys are all ASCII, a name
    [suggestLocal] offers is resolved by the exact lookup, and submitting it
    to [/capital] shows the success page under that very name; so does
    [/select_local], unless the stored capital is empty.  (A key beyond
    ASCII need not come back from its display form.) *)
Theorem suggestion_resolves (env : Env) (w : World) (q name : string) (s : Z) :
  reachable env w ->
  Forall (fun k => isascii k = true) (Dict.keys (countryCapital w)) ->
  In (name, s) (suggestLocal env w q) ->
  exists city,
    resolveExact env w name = Some city
    /\ fst (App.capital env name w) = Ok (App.success_html name city)
    /\ (city <> "" ->
        fst (App.select_local name w) = Ok (App.success_html name city)).
Proof.
  intros Hr Hascii Hin. rewrite suggestLocal_eq in Hin.
  destruct (Dict.keys (countryCapital w)) as [|k0 ks] eqn:E; [destruct Hin|].
  rewrite <- E in Hin, Hascii.
  apply (proj1 (in_map_iff _ _ _)) in Hin.
  destruct Hin as ([k s'] & [= <- <-] & Hin).
  apply (proj1 (filter_In _ _ _)) in Hin. destruct Hin as [Hin _].
  apply (proj2 (extract_sound (matcher_ratio env) q _ 5)) in Hin.
  destruct Hin as [Hk _]. cbn [fst].
  destruct (reachable_store_inv env w Hr) as (_ & Hlow & _).
  rewrite Forall_forall in Hlow, Hascii.
  specialize (Hlow k Hk). specialize (Hascii k Hk).
  destruct (in_keys_get _ _ Hk) as [city Hcity].
  assert (Hl : Py.lower (Py.capitalize k) = k)
    by now apply lower_capitalize_key.
  exists city. split; [|split].
  - now rewrite resolveExact_get, Hl.
  - unfold App.capital, bind, get_countryCapital. rewrite Hl, Hcity.
    reflexivity.
  - intros Hne. unfold App.select_local, bind, get_countryCapital.
    rewrite Hl, Hcity. destruct city; [contradiction|reflexivity].
Qed.

Lemma suggestion_resolves_witness :
  exists city,
    resolveExact offline_env france_store "France" = Some city
    /\ fst (App.capital offline_env "France" france_store)
       = Ok (App.success_html "France" city)
    /\ (city <> "" ->
        fst (App.select_local "France" france_store)
        = Ok (App.success_html "France" city)).
Proof.
  apply (suggestion_resolves offline_env france_store "franse" "France" 83).
  - apply reach_startup.
  - repeat constructor.
  - vm_compute. left. reflexivity.
Defined.

(* ================================================================== *)
(** ** The lookup against the file *)

(** X14.  The lookup is sound and complete for the file.  In a reachable state
    whose file can be read, a capital the lookup returns is the capital of
    a record whose country equals the query up to case, and the lookup
    misses exactly when the file holds no such record. *)
Theorem lookup_sound_complete (env : Env) (w : World) (data : list Entry)
      (q : string) :
  reachable env w -> file w = Json data ->
  (forall city, resolveExact env w q = Some city ->
                exists e, In e data
                          /\ Py.lower (country e) = Py.lower q
                          /\ capital e = city)
  /\ (resolveExact env w q = None
      <-> forall e, In e data -> Py.lower (country e) <> Py.lower q).
Proof.
  intros Hr Hf. rewrite (reachable_lookup env w data q Hr Hf).
  split; [intros city H; now apply last_capital_in|].
  split.
  - intros Hnone e Hin Hk.
    destruct (last_capital_found data e Hin) as [c Hc].
    rewrite Hk in Hc. congruence.
  - apply last_capital_none.
Qed.

Lemma lookup_sound_complete_witness :
  (exists e, In e [france; lutetia]
             /\ Py.lower (country e) = Py.lower "france"
             /\ capital e = "Lutetia")
  /\ resolveExact offline_env (startup [france; lutetia]) "germany" = None.
Proof.
  destruct (lookup_sound_complete offline_env (startup [france; lutetia])
              [france; lutetia] "france" (reach_startup offline_env _) eq_refl)
    as [Hsound _].
  destruct (lookup_sound_complete offline_env (startup [france; lutetia])
              [france; lutetia] "germany" (reach_startup offline_env _) eq_refl)
    as [_ Hmiss].
  split; [apply Hsound; reflexivity|].
  apply Hmiss. intros e [<-|[<-|[]]]; discriminate.
Defined.

(* ================================================================== *)
(** ** What a successful save touches *)

(** Assignment keeps the order of the keys: a present key stays where it
    is, a new one goes last. *)
Lemma keys_set (d : Dict.t) (k v : string) :
  Dict.keys (Dict.set d k v)
  = match Dict.get d k with
    | Some _ => Dict.keys d
    | None => (Dict.keys d ++ [k])%list
    end.
Proof.
  unfold Dict.keys. induction d as [|[k' v'] r IH]; [reflexivity|].
  cbn [Dict.set Dict.get]. destruct (String.eqb k' k); [reflexivity|].
  cbn [map fst]. rewrite IH. now destruct (Dict.get r k).
Qed.

(** X15.  A successful [save] touches one key.  When the directory names the
    country and the write completes, the lookup of every input that is not
    a case variant of the canonical name answers as before, the cache of
    the remote directory is untouched and the one request sent is the name
    lookup for the trimmed input. *)
Theorem save_touches_one_key (env : Env) (w : World) (c t canonical : string)
      (rest : list CountryJson) (data : list Entry) :
  http_get env (List.length (http_log w)) (App.name_url (Py.strip c))
  = HttpResponse 200 (mkCountry canonical :: rest) ->
  file w = Json data ->
  disk_write env (data ++ [saved_entry canonical t]) = Written ->
  (forall q, Py.lower q <> Py.lower canonical ->
             resolveExact env (snd (App.save env c t w)) q = resolveExact env w q)
  /\ all_countries_cache (snd (App.save env c t w)) = all_countries_cache w
  /\ http_log (snd (App.save env c t w))
     = (http_log w ++ [App.name_url (Py.strip c)])%list
  /\ Dict.keys (countryCapital (snd (App.save env c t w)))
     = match Dict.get (countryCapital w) (Py.lower canonical) with
       | Some _ => Dict.keys (countryCapital w)
       | None => (Dict.keys (countryCapital w) ++ [Py.lower canonical])%list
       end.
Proof.
  intros Hv Hf Hw.
  destruct (save_validated env w c t canonical rest Hv) as [Hs _].
  rewrite Hs, append_and_index_run. cbn [sent file].
  rewrite Hf. cbn zeta. unfold saved_entry in Hw. rewrite Hw.
  cbn [snd all_countries_cache http_log countryCapital].
  split; [|split; [reflexivity|split; [reflexivity|]]].
  - intros q Hq. rewrite !resolveExact_get. cbn [countryCapital].
    apply get_set_other. congruence.
  - apply keys_set.
Qed.

Lemma save_touches_one_key_witness :
  resolveExact (directory_env "Germany")
    (snd (App.save (directory_env "Germany") "Deutschland" "berlin" france_store))
    "France"
  = resolveExact (directory_env "Germany") france_store "France"
  /\ Dict.keys (countryCapital
                  (snd (App.save (directory_env "Germany") "Deutschland"
                                 "berlin" france_store)))
     = ["france"; "germany"].
Proof.
  destruct (save_touches_one_key (directory_env "Germany") france_store
              "Deutschland" "berlin" "Germany" [] [france]
              eq_refl eq_refl eq_refl) as (Hother & _ & _ & Hkeys).
  split; [apply Hother; discriminate|exact Hkeys].
Defined.

Lemma set_same_value (d : Dict.t) (k v : string) :
  Dict.get d k = Some v -> Dict.set d k v = d.
Proof.
  induction d as [|[k' v'] r IH]; cbn [Dict.get Dict.set]; [discriminate|].
  destruct (String.eqb k' k); [now intros [= ->]|].
  intros H. now rewrite IH.
Qed.

(** X16.  Saving again what is stored.  When the lookup already answers the
    canonical name with the capital being saved, a successful [save] leaves
    the dictionary exactly as it is, and still appends a record to the
    file: the file grows, the index does not. *)
Theorem save_again_keeps_dictionary (env : Env) (w : World)
      (c t canonical : string) (rest : list CountryJson) (data : list Entry) :
  http_get env (List.length (http_log w)) (App.name_url (Py.strip c))
  = HttpResponse 200 (mkCountry canonical :: rest) ->
  file w = Json data ->
  disk_write env (data ++ [saved_entry canonical t]) = Written ->
  resolveExact env w canonical = Some (Py.capitalize (Py.strip t)) ->
  countryCapital (snd (App.save env c t w)) = countryCapital w
  /\ file (snd (App.save env c t w)) = Json (data ++ [saved_entry canonical t])
  /\ fst (App.save env c t w)
     = Ok (App.success_html canonical (Py.capitalize (Py.strip t))).
Proof.
  intros Hv Hf Hw Hhit.
  destruct (save_validated env w c t canonical rest Hv) as [Hs _].
  rewrite Hs, append_and_index_run. cbn [sent file].
  rewrite Hf. cbn zeta. unfold saved_entry in *. rewrite Hw.
  cbn [fst snd sent countryCapital file].
  rewrite resolveExact_get in Hhit.
  now rewrite (set_same_value _ _ _ Hhit).
Qed.

Lemma save_again_keeps_dictionary_witness :
  countryCapital
    (snd (App.save (directory_env "France") " france" "PARIS " france_store))
  = countryCapital france_store
  /\ file (snd (App.save (directory_env "France") " france" "PARIS "
                         france_store))
     = Json [france; france].
Proof.
  destruct (save_again_keeps_dictionary (directory_env "France") france_store
              " france" "PARIS " "France" [] [france]
              eq_refl eq_refl eq_refl eq_refl) as (Hd & Hf & _).
  split; [exact Hd|exact Hf].
Defined.

(* ================================================================== *)
(** ** The two lookup routes *)

(** X17.  [/select_local] reads the dictionary as [/capital] does and changes
    nothing, but it tests the capital for truth, not for presence: on a
    hit with a capital that is not empty the two routes show the same
    page; on a hit with an empty capital [/capital] shows the success page
    and [/select_local] the page for an unknown country; on a miss
    [/select_local] shows that page and never computes suggestions. *)
Theorem select_local_versus_capital (env : Env) (q : string) (w : World) :
  snd (App.select_local q w) = w
  /\ (forall city, resolveExact env w q = Some city -> city <> "" ->
                   fst (App.select_local q w) = fst (App.capital env q w)
                   /\ fst (App.select_local q w)
                      = Ok (App.success_html (Py.capitalize (Py.lower q)) city))
  /\ (resolveExact env w q = Some "" ->
      fst (App.capital env q w)
      = Ok (App.success_html (Py.capitalize (Py.lower q)) "")
      /\ fst (App.select_local q w)
         = Ok (App.unknown_html (Py.capitalize (Py.lower q)) ""))
  /\ (resolveExact env w q = None ->
      fst (App.select_local q w)
      = Ok (App.unknown_html (Py.capitalize (Py.lower q)) "")).
Proof.
  rewrite resolveExact_get.
  unfold App.select_local, App.capital, bind, get_countryCapital, ret.
  destruct (Dict.get (countryCapital w) (Py.lower q)) as [[|x y]|];
    cbn [fst snd].
  - split; [reflexivity|]. split; [intros city [= <-] H; contradiction|].
    split; [now split|discriminate].
  - split; [reflexivity|]. split; [intros city [= <-] _; now split|].
    split; discriminate.
  - split; [reflexivity|]. split; [discriminate|]. split; [discriminate|].
    reflexivity.
Qed.

Lemma select_local_versus_capital_witness :
  fst (App.select_local "FRANCE" france_store)
  = Ok (App.success_html "France" "Paris")
  /\ (fst (App.capital (directory_env "France") "france" saved_blank)
      = Ok (App.success_html "France" "")
      /\ fst (App.select_local "france" saved_blank)
         = Ok (App.unknown_html "France" ""))
  /\ fst (App.select_local "Franse" france_store)
     = Ok (App.unknown_html "Franse" "").
Proof.
  destruct (select_local_versus_capital offline_env "FRANCE" france_store)
    as (_ & Hhit & _).
  destruct (select_local_versus_capital (directory_env "France") "france"
              saved_blank) as (_ & _ & Hempty & _).
  destruct (select_local_versus_capital offline_env "Franse" france_store)
    as (_ & _ & _ & Hmiss).
  split; [apply (Hhit "Paris"); [reflexivity|discriminate]|].
  split; [apply Hempty; reflexivity|apply Hmiss; reflexivity].
Defined.

(* ================================================================== *)
(** ** The keys and the file *)

Lemma get_existsb (d : Dict.t) (k : string) :
  existsb (String.eqb k) (Dict.keys d)
  = match Dict.get d k with Some _ => true | None => false end.
Proof.
  unfold Dict.keys. induction d as [|[k' v'] r IH]; [reflexivity|].
  cbn [map fst existsb Dict.get]. rewrite (String.eqb_sym k k').
  destruct (String.eqb k' k); [reflexivity|exact IH].
Qed.

Lemma first_occurrences_snoc (l : list string) (k : string) :
  first_occurrences (l ++ [k])
  = if existsb (String.eqb k) (first_occurrences l)
    then first_occurrences l
    else (first_occurrences l ++ [k])%list.
Proof. unfold first_occurrences. now rewrite fold_left_app. Qed.

Lemma keys_build_index (data : list Entry) :
  Dict.keys (build_index data)
  = first_occurrences (map (fun e => Py.lower (country e)) data).
Proof.
  induction data as [|e r IH] using rev_ind; [reflexivity|].
  rewrite build_index_app, map_app, keys_set. cbn [map].
  rewrite first_occurrences_snoc, <- IH, get_existsb.
  now destruct (Dict.get (build_index r) (Py.lower (country e))).
Qed.

Lemma length_first_occurrences (l : list string) :
  (List.length (first_occurrences l) <= List.length l)%nat.
Proof.
  induction l as [|k r IH] using rev_ind; [cbn; lia|].
  rewrite first_occurrences_snoc, !length_app. cbn [List.length].
  destruct (existsb _ _); [lia|]. rewrite length_app. cbn [List.length]. lia.
Qed.

(** X18.  The corpus of the local suggestions.  In a reachable state whose
    file can be read, the keys of [countryCapital], in the order the
    dictionary lists them, are the lower-cased countries of the file in the
    order of their first record, each once; so there are never more keys
    than records. *)
Theorem keys_follow_the_file (env : Env) (w : World) (data : list Entry) :
  reachable env w -> file w = Json data ->
  Dict.keys (countryCapital w)
  = first_occurrences (map (fun e => Py.lower (country e)) data)
  /\ (List.length (Dict.keys (countryCapital w)) <= List.length data)%nat
  /\ (forall k, In k (Dict.keys (countryCapital w))
                <-> exists e, In e data /\ Py.lower (country e) = k).
Proof.
  intros Hr Hf.
  destruct (reachable_store_inv env w Hr) as (_ & _ & Hidx).
  rewrite (Hidx data Hf), keys_build_index.
  split; [reflexivity|]. split.
  - eapply Nat.le_trans; [apply length_first_occurrences|].
    now rewrite length_map.
  - intros k. rewrite <- keys_build_index. split.
    + intros Hk. destruct (in_keys_get _ _ Hk) as [v Hv].
      rewrite get_build_index in Hv.
      destruct (last_capital_in data k v Hv) as (e & He & Hk' & _). eauto.
    + intros (e & He & <-).
      destruct (last_capital_found data e He) as [c Hc].
      rewrite <- get_build_index in Hc. now apply get_some_in_keys in Hc.
Qed.

Lemma keys_follow_the_file_witness :
  Dict.keys (countryCapital saved_twice) = ["france"]
  /\ (List.length (Dict.keys (countryCapital saved_twice)) <= 2)%nat.
Proof.
  assert (Hr : reachable (directory_env "France") saved_twice)
    by (unfold saved_twice; repeat apply reach_handle; apply reach_startup).
  destruct (keys_follow_the_file (directory_env "France") saved_twice
              [france; france] Hr eq_refl) as (Hk & Hl & _).
  split; [exact Hk|exact Hl].
Defined.
